(** * yamldiff: the recursive tree differ of [yamldiff/yamldiff.py]

    A shallow embedding of [YamlDiffer] (stream, document, mapping and
    sequence comparison) together with the properties of its results.

    Python semantics assumed throughout: an interpreter in which
    [collections.Mapping] resolves (3.6 to 3.9), assertions enabled. *)

From Stdlib Require Import List String Ascii ZArith Bool Lia Arith DecimalString.
Import ListNotations.

Local Open Scope string_scope.
Local Open Scope list_scope.

(** ** Exceptions and the error monad *)

(** The exceptions the differ can leave through.  [DiffError] is the
    module's own class; the others are the interpreter's. *)
Inductive exn : Type :=
| DiffError (msg : string)
| TypeError
| AttributeError
| KeyError
| AssertionError.

Inductive result (A : Type) : Type :=
| Ok (a : A)
| Raise (e : exn).

Arguments Ok {A} a.
Arguments Raise {A} e.

Definition bind {A B : Type} (c : result A) (k : A -> result B) : result B :=
  match c with
  | Ok a => k a
  | Raise e => Raise e
  end.

Notation "x <- c ;; k" := (bind c (fun x => k))
  (at level 61, c at next level, right associativity).

(** A [for] loop whose body only appends to [diffs]: every iteration is
    modelled by the records it appends, and an exception ends the loop. *)
Definition for_each {A B : Type} (xs : list A) (body : A -> result (list B))
  : result (list B) :=
  (fix loop (xs : list A) : result (list B) :=
     match xs with
     | [] => Ok []
     | x :: xs' =>
         d <- body x ;;
         ds <- loop xs' ;;
         Ok (d ++ ds)
     end) xs.

(** [for idx, x in enumerate(xs, idx)] with a body that only appends. *)
Definition for_each_from {A B : Type} (idx : nat) (xs : list A)
    (body : nat -> A -> result (list B)) : result (list B) :=
  (fix loop (idx : nat) (xs : list A) : result (list B) :=
     match xs with
     | [] => Ok []
     | x :: xs' =>
         d <- body idx x ;;
         ds <- loop (S idx) xs' ;;
         Ok (d ++ ds)
     end) idx xs.

(** ** Positions *)

(** ruamel's [lc] object of a container: 0-based [line] and [col]. *)
Record LineCol : Type := mkLineCol { lc_line : Z; lc_col : Z }.

(** What [DiffContext.from_lc] receives: the [lc] object itself, or the
    tuple returned by [lc.key(k)], [lc.value(k)] and [lc.item(i)]. *)
Inductive lc_arg : Type :=
| LcObject (lc : LineCol)
| LcTuple (t : Z * Z).

Record DiffContext : Type := mkDiffContext { line : Z; col : Z }.

Definition from_lc (lc : lc_arg) : DiffContext :=
  match lc with
  | LcObject o => mkDiffContext (lc_line o + 1) (lc_col o + 1)
  | LcTuple (l, c) => mkDiffContext (l + 1) (c + 1)
  end.

(** ** Difference records *)

Record Diff : Type := mkDiff {
  left : string;
  right : string;
  left_context : option DiffContext;
  right_context : option DiffContext
}.

Inductive NodeType : Type := NULL | MAP | LIST | SCALAR.

(** [NodeType.value] *)
Definition NodeType_value (t : NodeType) : string :=
  match t with
  | NULL => "null"
  | MAP => "map"
  | LIST => "sequence"
  | SCALAR => "scalar"
  end.

Definition NodeType_eqb (a b : NodeType) : bool :=
  match a, b with
  | NULL, NULL | MAP, MAP | LIST, LIST | SCALAR, SCALAR => true
  | _, _ => false
  end.

Lemma NodeType_eqb_eq (a b : NodeType) : NodeType_eqb a b = true <-> a = b.
Proof. destruct a, b; simpl; split; congruence. Qed.

Lemma NodeType_eqb_refl (a : NodeType) : NodeType_eqb a a = true.
Proof. now destruct a. Qed.

Lemma NodeType_eqb_sym (a b : NodeType) : NodeType_eqb a b = NodeType_eqb b a.
Proof. now destruct a, b. Qed.

(** Decimal rendering of an integer inside an f-string. *)
Definition str_int (z : Z) : string := NilZero.string_of_int (Z.to_int z).

Definition dquote : string := String (ascii_of_nat 34) EmptyString.
Definition newline : string := String (ascii_of_nat 10) EmptyString.

(** ** Parsed values *)

(** A parsed value of the round-trip loader.  A [CommentedSeq] holds, for
    each index, the position [lc.data[idx]] and the item; a [CommentedMap]
    holds, in iteration order and for each key, the key position and the
    value position ([lc.data[key]]) and the value.  [None] and leaves
    carry no [lc].  [scalar] is the type of the leaf values the parser
    produces (str, int, float, bool, ...), [key] the type of the hashable
    values it uses as mapping keys.  A byte string (a [!!binary] value),
    which [_node_type] would classify as a sequence although it has no
    [lc], is not a value of this type. *)
#[local] Set Warnings "-register-all".
Inductive node (scalar key : Type) : Type :=
| PyNone
| Scalar (s : scalar)
| CommentedSeq (lc : LineCol) (items : list ((Z * Z) * node scalar key))
| CommentedMap (lc : LineCol)
    (items : list (key * (Z * Z) * (Z * Z) * node scalar key)).

Arguments PyNone {scalar key}.
Arguments Scalar {scalar key} s.
Arguments CommentedSeq {scalar key} lc items.
Arguments CommentedMap {scalar key} lc items.

(** The interpreter's operations on parsed values: [!=] on leaves, the
    key equality of [dict], [str] of a key and [str] of a value. *)
Class PyOps (scalar key : Type) : Type := {
  py_ne : scalar -> scalar -> bool;
  key_eqb : key -> key -> bool;
  str_key : key -> string;
  py_str : node scalar key -> string
}.

(** What [list(y.load_all(stream))] does on a stream: it yields the
    documents, or raises a [MarkedYAMLError] whose [problem_mark] holds a
    0-based line and column; [context] and [problem] are given as the
    f-string renders them. *)
Inductive load_outcome (scalar key : Type) : Type :=
| Loaded (contents : list (node scalar key))
| MarkedYAMLError (mark_line mark_column : Z) (context problem : string).

(** A stream argument: its [name] attribute when it has one, and what
    loading it does. *)
Record stream (scalar key : Type) : Type := mkStream {
  stream_name : option string;
  load_all : load_outcome scalar key
}.

Arguments Loaded {scalar key} contents.
Arguments MarkedYAMLError {scalar key} mark_line mark_column context problem.
Arguments mkStream {scalar key} stream_name load_all.
Arguments stream_name {scalar key} s.
Arguments load_all {scalar key} s.

Section Differ.

Context {scalar key : Type} {ops : PyOps scalar key}.

Local Abbreviation node := (node scalar key).
Local Abbreviation stream := (stream scalar key).

Definition seq_item : Type := ((Z * Z) * node)%type.
Definition map_item : Type := (key * (Z * Z) * (Z * Z) * node)%type.

Definition _node_type (x : node) : NodeType :=
  match x with
  | PyNone => NULL
  | CommentedMap _ _ => MAP
  | CommentedSeq _ _ => LIST
  | Scalar _ => SCALAR
  end.

Definition is_None (x : node) : bool :=
  match x with PyNone => true | _ => false end.

(** [x.lc] *)
Definition node_lc (x : node) : result LineCol :=
  match x with
  | CommentedSeq lc _ | CommentedMap lc _ => Ok lc
  | PyNone | Scalar _ => Raise AttributeError
  end.

(** [x.lc.item(idx)], as [DiffContext.from_lc] receives it.  A
    sequence that recorded item positions raises [KeyError] for an
    index it does not have; an empty sequence recorded none, [item]
    returns [None], and [from_lc] raises [TypeError] on it. *)
Definition lc_item (x : node) (idx : nat) : result (Z * Z) :=
  match x with
  | CommentedSeq _ items =>
      match nth_error items idx with
      | Some (p, _) => Ok p
      | None =>
          match items with
          | [] => Raise TypeError
          | _ :: _ => Raise KeyError
          end
      end
  | CommentedMap _ _ => Raise KeyError
  | PyNone | Scalar _ => Raise AttributeError
  end.

(** Dictionary lookup: the entry of the first key equal to [k]. *)
Fixpoint lookup (k : key) (items : list map_item) : option map_item :=
  match items with
  | [] => None
  | (k', kp, vp, v) :: rest =>
      if key_eqb k k' then Some (k', kp, vp, v) else lookup k rest
  end.

(** [k in x] *)
Definition contains (x : node) (k : key) : bool :=
  match x with
  | CommentedMap _ items =>
      match lookup k items with Some _ => true | None => false end
  | _ => false
  end.

(** [x[k]] *)
Definition getitem (x : node) (k : key) : result node :=
  match x with
  | CommentedMap _ items =>
      match lookup k items with
      | Some (_, _, _, v) => Ok v
      | None => Raise KeyError
      end
  | _ => Raise TypeError
  end.

(** [x.lc.key(k)] *)
Definition lc_key (x : node) (k : key) : result (Z * Z) :=
  match x with
  | CommentedMap _ items =>
      match lookup k items with
      | Some (_, kp, _, _) => Ok kp
      | None => Raise KeyError
      end
  | CommentedSeq _ _ => Raise KeyError
  | PyNone | Scalar _ => Raise AttributeError
  end.

(** [x.lc.value(k)] *)
Definition lc_value (x : node) (k : key) : result (Z * Z) :=
  match x with
  | CommentedMap _ items =>
      match lookup k items with
      | Some (_, _, vp, _) => Ok vp
      | None => Raise KeyError
      end
  | CommentedSeq _ _ => Raise KeyError
  | PyNone | Scalar _ => Raise AttributeError
  end.

(** [a != b] between two parsed values; the differ evaluates it only when
    both classify as SCALAR. *)
Definition node_ne (a b : node) : bool :=
  match a, b with
  | Scalar s, Scalar t => py_ne s t
  | _, _ => true
  end.

(** [zip_longest(range(max_len), left, right)] with
    [max_len = max(len(left), len(right))]: the fill value is [None].
    [fill_left] is the part past the end of [left]. *)
Fixpoint fill_left (idx : nat) (rs : list node) : list (nat * node * node) :=
  match rs with
  | [] => []
  | r :: rs' => (idx, PyNone, r) :: fill_left (S idx) rs'
  end.

Fixpoint zip_longest_from (idx : nat) (ls rs : list node)
  : list (nat * node * node) :=
  match ls with
  | [] => fill_left idx rs
  | l :: ls' =>
      match rs with
      | [] => (idx, l, PyNone) :: zip_longest_from (S idx) ls' []
      | r :: rs' => (idx, l, r) :: zip_longest_from (S idx) ls' rs'
      end
  end.

Definition zip_longest (ls rs : list node) : list (nat * node * node) :=
  zip_longest_from 0 ls rs.

(** The sequence a container iterates over. *)
Definition seq_values (items : list seq_item) : list node := map snd items.

(** *** The two loop bodies

    The bodies of the [for] loops of [_diff_yaml_lists] and
    [_diff_yaml_maps], with the two recursive methods as parameters;
    the fixpoint below ties the knot. *)
Section Bodies.

Variable rec_lists rec_maps : node -> node -> result (list Diff).

(** Body of the loop of [_diff_yaml_lists]. *)
Definition lists_body (left right : node) (idx : nat) (item_l item_r : node)
  : result (list Diff) :=
  if is_None item_l then
    lcl <- node_lc left ;;
    pr <- lc_item right idx ;;
    Ok [mkDiff "<missing item>" (py_str item_r)
          (Some (from_lc (LcObject lcl))) (Some (from_lc (LcTuple pr)))]
  else if is_None item_r then
    pl <- lc_item left idx ;;
    lcr <- node_lc right ;;
    Ok [mkDiff (py_str item_l) "<missing item>"
          (Some (from_lc (LcTuple pl))) (Some (from_lc (LcObject lcr)))]
  else
    let type_l := _node_type item_l in
    let type_r := _node_type item_r in
    if NodeType_eqb type_l type_r then
      match type_l with
      | NULL => Ok []
      | LIST => rec_lists item_l item_r
      | MAP => rec_maps item_l item_r
      | SCALAR =>
          if node_ne item_l item_r then
            pl <- lc_item left idx ;;
            pr <- lc_item right idx ;;
            Ok [mkDiff (py_str item_l) (py_str item_r)
                  (Some (from_lc (LcTuple pl))) (Some (from_lc (LcTuple pr)))]
          else Ok []
      end
    else
      pl <- lc_item left idx ;;
      pr <- lc_item right idx ;;
      Ok [mkDiff ("<node of type " ++ NodeType_value type_l ++ ">")
                 ("<node of type " ++ NodeType_value type_r ++ ">")
            (Some (from_lc (LcTuple pl))) (Some (from_lc (LcTuple pr)))].

(** Body of the first loop of [_diff_yaml_maps], over [left.items()].
    The iteration yields the key with its value; [left[key]],
    [left.lc.key(key)] and [left.lc.value(key)] are the entry's own value
    and positions. *)
Definition maps_body (left right : node) (it : map_item)
  : result (list Diff) :=
  let '(key, kpos, vpos, value) := it in
  if negb (contains right key) then
    lcr <- node_lc right ;;
    Ok [mkDiff (str_key key) "<missing key>"
          (Some (from_lc (LcTuple kpos))) (Some (from_lc (LcObject lcr)))]
  else
    right_key <- getitem right key ;;
    let type_l := _node_type value in
    let type_r := _node_type right_key in
    if NodeType_eqb type_l type_r then
      match type_l with
      | NULL => Ok []
      | LIST => rec_lists value right_key
      | MAP => rec_maps value right_key
      | SCALAR =>
          if node_ne value right_key then
            pr <- lc_value right key ;;
            Ok [mkDiff (py_str value) (py_str right_key)
                  (Some (from_lc (LcTuple vpos))) (Some (from_lc (LcTuple pr)))]
          else Ok []
      end
    else
      pr <- lc_value right key ;;
      Ok [mkDiff ("<node of type " ++ NodeType_value type_l ++ "> " ++ str_key key)
                 ("<node of type " ++ NodeType_value type_r ++ "> " ++ str_key key)
            (Some (from_lc (LcTuple vpos))) (Some (from_lc (LcTuple pr)))].

End Bodies.

(** Body of the second loop of [_diff_yaml_maps], over [right.items()]. *)
Definition maps_right_body (left right : node) (it : map_item)
  : result (list Diff) :=
  let '(key, kpos, _, _) := it in
  if negb (contains left key) then
    lcl <- node_lc left ;;
    Ok [mkDiff "<missing key>" (str_key key)
          (Some (from_lc (LcObject lcl))) (Some (from_lc (LcTuple kpos)))]
  else Ok [].

(** The item of a sequence at [idx], or the fill value of [zip_longest]
    past its end. *)
Definition item_or_fill (items : list seq_item) (idx : nat) : node :=
  match nth_error items idx with
  | Some (_, x) => x
  | None => PyNone
  end.

(** The iterations of [_diff_yaml_lists] in which the left side is
    exhausted: [item_l] is the fill value [None], so the first branch of
    the body runs and neither recursive method is reached. *)
Definition lists_left_exhausted (left right : node) (idx : nat) (it : seq_item)
  : result (list Diff) :=
  lists_body (fun _ _ => Ok []) (fun _ _ => Ok []) left right idx PyNone (snd it).

(** *** [_diff_yaml_maps] and [_diff_yaml_lists]

    Both recurse on the left node.  The loop over
    [zip_longest(range(max_len), left, right)] is split at [len(left)]
    so that the recursion is structural; [_diff_yaml_lists_unfold] below
    states it as the one loop over [zip_longest]. *)
Fixpoint _diff_yaml_maps (left right : node) {struct left}
  : result (list Diff) :=
  match left, right with
  | CommentedMap _ items_l, CommentedMap _ items_r =>
      first <- for_each items_l
                 (maps_body _diff_yaml_lists _diff_yaml_maps left right) ;;
      second <- for_each items_r (maps_right_body left right) ;;
      Ok (first ++ second)
  | _, _ => Raise AssertionError
  end

with _diff_yaml_lists (left right : node) {struct left}
  : result (list Diff) :=
  match left, right with
  | CommentedSeq _ items_l, CommentedSeq _ items_r =>
      first <- for_each_from 0 items_l
                 (fun idx it =>
                    lists_body _diff_yaml_lists _diff_yaml_maps left right
                      idx (snd it) (item_or_fill items_r idx)) ;;
      rest <- for_each_from (List.length items_l)
                (skipn (List.length items_l) items_r)
                (lists_left_exhausted left right) ;;
      Ok (first ++ rest)
  | _, _ => Raise AssertionError
  end.

(** *** [diff_yaml_docs] *)

(** What [diff_yaml_docs] hands back: the list built by one of the two
    recursive methods, or, on a type mismatch, a bare [Diff] object. *)
Inductive docs_value : Type :=
| PyList (ds : list Diff)
| PyDiff (d : Diff).

(** [DiffContext.from_lc(x.lc) if type_x != NodeType.NULL else None] *)
Definition top_context (x : node) (type_x : NodeType)
  : result (option DiffContext) :=
  if negb (NodeType_eqb type_x NULL) then
    lc <- node_lc x ;;
    Ok (Some (from_lc (LcObject lc)))
  else Ok None.

Definition diff_yaml_docs (left right : node) : result docs_value :=
  let type_l := _node_type left in
  let type_r := _node_type right in
  if NodeType_eqb type_l type_r then
    match type_l with
    | MAP => ds <- _diff_yaml_maps left right ;; Ok (PyList ds)
    | LIST => ds <- _diff_yaml_lists left right ;; Ok (PyList ds)
    | NULL | SCALAR => Raise (DiffError "Unknown YAML root node type")
    end
  else
    cl <- top_context left type_l ;;
    cr <- top_context right type_r ;;
    Ok (PyDiff (mkDiff ("<top-level node of type " ++ NodeType_value type_l ++ ">")
                       ("<top-level node of type " ++ NodeType_value type_r ++ ">")
                       cl cr)).

(** *** [diff_yaml_streams] *)

Definition cannot_skip_header : string :=
  "Cannot skip header: no header YAML document found".

Definition parse_error_message (name : string) (mark_line mark_column : Z)
    (context problem : string) : string :=
  "Error parsing YAML stream " ++ dquote ++ name ++ dquote ++ ":" ++ newline ++
  str_int (mark_line + 1) ++ ":" ++ str_int (mark_column + 1) ++ " " ++
  context ++ ": " ++ problem.

Definition try_load (skip_header_doc : bool) (s : stream) (side_name : string)
  : result (list node) :=
  match load_all s with
  | Loaded contents =>
      if skip_header_doc then
        if (List.length contents <? 2)%nat then Raise (DiffError cannot_skip_header)
        else Ok (tl contents)
      else Ok contents
  | MarkedYAMLError mark_line mark_column context problem =>
      let name :=
        match stream_name s with Some n => n | None => side_name end in
      Raise (DiffError
               (parse_error_message name mark_line mark_column context problem))
  end.

(** [f'<YAML document #{idx+1}>'] *)
Definition yaml_document (idx : nat) : string :=
  "<YAML document #" ++ str_int (Z.of_nat idx + 1) ++ ">".

(** Body of the loop of [diff_yaml_streams]; [diffs += x] needs an
    iterable [x]. *)
Definition streams_body (t : nat * node * node) : result (list Diff) :=
  let '(idx, doc_l, doc_r) := t in
  if is_None doc_l then
    lc <- node_lc doc_r ;;
    Ok [mkDiff "<no document>" (yaml_document idx)
          None (Some (from_lc (LcObject lc)))]
  else if is_None doc_r then
    lc <- node_lc doc_l ;;
    Ok [mkDiff (yaml_document idx) "<no document>"
          (Some (from_lc (LcObject lc))) None]
  else
    v <- diff_yaml_docs doc_l doc_r ;;
    match v with
    | PyList ds => Ok ds
    | PyDiff _ => Raise TypeError
    end.

Definition diff_yaml_streams (left right : stream) (skip_header_doc : bool)
  : result (list Diff) :=
  contents_l <- try_load skip_header_doc left "left" ;;
  contents_r <- try_load skip_header_doc right "right" ;;
  for_each (zip_longest contents_l contents_r) streams_body.

(** ** Predicates on parsed values *)

Definition all2 {A B : Type} (f : A -> B -> bool) : list A -> list B -> bool :=
  fix go (xs : list A) (ys : list B) {struct xs} : bool :=
    match xs, ys with
    | [], [] => true
    | x :: xs', y :: ys' => f x y && go xs' ys'
    | _, _ => false
    end.

(** Agreement of two parsed values as the differ tests it: the same
    shape and the same keys, and no two corresponding leaves that [!=]
    tells apart.  On a leaf that is not equal to itself (a NaN) it is
    not reflexive; the identity of the data is [same_data] below. *)
Fixpoint sem_eq (a b : node) {struct a} : bool :=
  match a, b with
  | PyNone, PyNone => true
  | Scalar s, Scalar t => negb (py_ne s t)
  | CommentedSeq _ ls, CommentedSeq _ rs =>
      all2 (fun (x y : seq_item) => sem_eq (snd x) (snd y)) ls rs
  | CommentedMap _ ls, CommentedMap _ rs =>
      forallb (fun it : map_item =>
                 match lookup (fst (fst (fst it))) rs with
                 | Some (_, _, _, v') => sem_eq (snd it) v'
                 | None => false
                 end) ls
      && forallb (fun it : map_item =>
                    match lookup (fst (fst (fst it))) ls with
                    | Some _ => true
                    | None => false
                    end) rs
  | _, _ => false
  end.






(** No sequence, at any depth, holds a null item. *)
Fixpoint no_null_items (x : node) : bool :=
  match x with
  | PyNone | Scalar _ => true
  | CommentedSeq _ items =>
      forallb (fun it : seq_item =>
                 negb (is_None (snd it)) && no_null_items (snd it)) items
  | CommentedMap _ items =>
      forallb (fun it : map_item => no_null_items (snd it)) items
  end.

(** The condition under which comparing [a] with [b] appends nothing. *)
Definition quiet (a b : node) : Prop :=
  sem_eq a b = true /\ no_null_items a = true.

(** The keys of a [dict] are pairwise different. *)
Fixpoint keys_distinct (items : list map_item) : bool :=
  match items with
  | [] => true
  | it :: rest =>
      negb (existsb (fun it' : map_item =>
                       key_eqb (fst (fst (fst it))) (fst (fst (fst it')))) rest)
      && keys_distinct rest
  end.

(** Every mapping, at any depth, has pairwise different keys. *)
Fixpoint well_formed (x : node) : bool :=
  match x with
  | PyNone | Scalar _ => true
  | CommentedSeq _ items =>
      forallb (fun it : seq_item => well_formed (snd it)) items
  | CommentedMap _ items =>
      keys_distinct items
      && forallb (fun it : map_item => well_formed (snd it)) items
  end.

(** Every leaf, at any depth, is equal to itself (no NaN). *)
Fixpoint self_equal (x : node) : bool :=
  match x with
  | PyNone => true
  | Scalar s => negb (py_ne s s)
  | CommentedSeq _ items =>
      forallb (fun it : seq_item => self_equal (snd it)) items
  | CommentedMap _ items =>
      forallb (fun it : map_item => self_equal (snd it)) items
  end.

(** The documents of a stream that [diff_yaml_streams] compares: all of
    them, or all but the header. *)
Definition compared (skip_header_doc : bool) (s : stream) : list node :=
  match load_all s with
  | Loaded contents => if skip_header_doc then tl contents else contents
  | MarkedYAMLError _ _ _ _ => []
  end.

(** Every document of a stream that loads is well formed. *)
Definition stream_well_formed (s : stream) : bool :=
  match load_all s with
  | Loaded contents => forallb well_formed contents
  | MarkedYAMLError _ _ _ _ => true
  end.

(** The two "missing key" records of [_diff_yaml_maps], for mappings
    whose [lc] objects are [lc_l] and [lc_r]. *)
Definition missing_in_right (lc_r : LineCol) (it : map_item) : Diff :=
  mkDiff (str_key (fst (fst (fst it)))) "<missing key>"
    (Some (from_lc (LcTuple (snd (fst (fst it))))))
    (Some (from_lc (LcObject lc_r))).

Definition missing_in_left (lc_l : LineCol) (it : map_item) : Diff :=
  mkDiff "<missing key>" (str_key (fst (fst (fst it))))
    (Some (from_lc (LcObject lc_l)))
    (Some (from_lc (LcTuple (snd (fst (fst it)))))).

Definition is_missing_key (d : Diff) : bool :=
  String.eqb (left d) "<missing key>" || String.eqb (right d) "<missing key>".

(** The entries of [a] whose key is not in [b], in the order of [a]. *)
Definition only_in (a b : list map_item) : list map_item :=
  filter (fun it : map_item =>
            match lookup (fst (fst (fst it))) b with
            | Some _ => false
            | None => true
            end) a.

End Differ.

Arguments _diff_yaml_maps : simpl never.
Arguments _diff_yaml_lists : simpl never.


(** ** A concrete reading of the parameters

    Leaves are Python ints and keys are Python strs.  The text of [str]
    on a container depends on the parser's version; it is rendered as a
    fixed marker here. *)
Module Ints.

Local Open Scope Z_scope.

Definition int_str (x : node Z string) : string :=
  match x with
  | PyNone => "None"
  | Scalar z => str_int z
  | CommentedSeq _ _ => "[...]"
  | CommentedMap _ _ => "{...}"
  end.

#[export] Instance ops : PyOps Z string := {|
  py_ne := fun a b => negb (Z.eqb a b);
  key_eqb := String.eqb;
  str_key := fun k => k;
  py_str := int_str
|}.

Definition at_ (l c : Z) : LineCol := mkLineCol l c.

(** [- ~] *)
Definition seq_null : node Z string := CommentedSeq (at_ 0 0) [((0, 2), PyNone)].
(** [- 1] *)
Definition seq_one : node Z string := CommentedSeq (at_ 0 0) [((0, 2), Scalar 1)].
(** [a: 1] *)
Definition map_a1 : node Z string :=
  CommentedMap (at_ 0 0) [("a", (0, 0), (0, 3), Scalar 1)].
(** [a: 2] *)
Definition map_a2 : node Z string :=
  CommentedMap (at_ 0 0) [("a", (0, 0), (0, 3), Scalar 2)].

(** [{a: 1, b: 2}] and [{a: 1, c: 3}] *)
Definition map_ab : node Z string :=
  CommentedMap (at_ 0 0)
    [("a", (0, 0), (0, 3), Scalar 1); ("b", (1, 0), (1, 3), Scalar 2)].
Definition map_ac : node Z string :=
  CommentedMap (at_ 0 0)
    [("a", (0, 0), (0, 3), Scalar 1); ("c", (1, 0), (1, 3), Scalar 3)].

(** A stream without a [name] that loads to [docs]. *)
Definition text (docs : list (node Z string)) : stream Z string :=
  mkStream None (Loaded docs).

(** A stream without a [name] whose loading raises at line 3, column 5
    (0-based: 2, 4). *)
Definition broken : stream Z string :=
  mkStream None (MarkedYAMLError 2 4 "while parsing a block mapping"
                   "expected <block end>, but found '-'").

End Ints.

(** * Properties *)

(** ** The error monad and the loops *)

Lemma bind_ok_inv {A B : Type} (c : result A) (k : A -> result B) (b : B) :
  bind c k = Ok b -> exists a, c = Ok a /\ k a = Ok b.
Proof.
  destruct c as [a|e]; simpl; intros H; [eauto | discriminate].
Qed.

Lemma bind_assoc {A B C : Type} (c : result A) (k : A -> result B)
    (h : B -> result C) :
  bind (bind c k) h = bind c (fun a => bind (k a) h).
Proof. now destruct c. Qed.

Lemma for_each_nil {A B : Type} (body : A -> result (list B)) :
  for_each [] body = Ok [].
Proof. reflexivity. Qed.

Lemma for_each_cons {A B : Type} (x : A) (xs : list A)
    (body : A -> result (list B)) :
  for_each (x :: xs) body =
  (d <- body x ;; ds <- for_each xs body ;; Ok (d ++ ds)).
Proof. reflexivity. Qed.

Lemma for_each_from_cons {A B : Type} (idx : nat) (x : A) (xs : list A)
    (body : nat -> A -> result (list B)) :
  for_each_from idx (x :: xs) body =
  (d <- body idx x ;; ds <- for_each_from (S idx) xs body ;; Ok (d ++ ds)).
Proof. reflexivity. Qed.

Lemma for_each_ext {A B : Type} (xs : list A) (f g : A -> result (list B)) :
  (forall x, In x xs -> f x = g x) -> for_each xs f = for_each xs g.
Proof.
  induction xs as [|x xs IH]; intros H; [reflexivity|].
  rewrite !for_each_cons, (H x (or_introl eq_refl)), IH; [reflexivity|].
  intros y Hy. apply H. now right.
Qed.

(** Given that the loop completes, it appends nothing exactly when every
    iteration meets the condition under which its body appends nothing. *)
Lemma for_each_empty_iff {A B : Type} (C : A -> Prop) (xs : list A)
    (body : A -> result (list B)) (ds : list B) :
  (forall x d, In x xs -> body x = Ok d -> (d = [] <-> C x)) ->
  for_each xs body = Ok ds ->
  (ds = [] <-> forall x, In x xs -> C x).
Proof.
  revert ds. induction xs as [|x xs IH]; intros ds HC H.
  - rewrite for_each_nil in H. injection H as <-. split; [intros _ x []|reflexivity].
  - rewrite for_each_cons in H.
    apply bind_ok_inv in H as (d & Hd & H).
    apply bind_ok_inv in H as (ds' & Hds' & H). injection H as <-.
    specialize (IH ds' (fun y e Hy => HC y e (or_intror Hy)) Hds').
    pose proof (HC x d (or_introl eq_refl) Hd) as Hx.
    split.
    + intros E. apply app_eq_nil in E as [E1 E2].
      intros y [<-|Hy]; [now apply Hx | now apply IH].
    + intros Hall.
      assert (d = []) as -> by (apply Hx, Hall; now left).
      assert (ds' = []) as -> by (apply IH; intros y Hy; apply Hall; now right).
      reflexivity.
Qed.

(** A loop whose iterations all succeed succeeds, with the records of
    the iterations in order. *)
Lemma for_each_all_ok {A B : Type} (xs : list A) (body : A -> result (list B))
    (out : A -> list B) :
  (forall x, In x xs -> body x = Ok (out x)) ->
  for_each xs body = Ok (flat_map out xs).
Proof.
  induction xs as [|x xs IH]; intros H; [reflexivity|].
  rewrite for_each_cons, (H x (or_introl eq_refl)). simpl.
  rewrite IH by (intros y Hy; apply H; now right). reflexivity.
Qed.

Section Properties.

Context {scalar key : Type} {ops : PyOps scalar key}.

Local Abbreviation node := (node scalar key).
Local Abbreviation stream := (stream scalar key).
Local Abbreviation seq_item := (@seq_item scalar key).
Local Abbreviation map_item := (@map_item scalar key).

(** ** Induction on parsed values *)

(** The induction principle that reaches the items of the containers. *)
Section node_induction.

Variable P : node -> Prop.
Hypothesis P_None : P PyNone.
Hypothesis P_Scalar : forall s, P (Scalar s).
Hypothesis P_Seq : forall lc (items : list seq_item),
  Forall (fun it => P (snd it)) items -> P (CommentedSeq lc items).
Hypothesis P_Map : forall lc (items : list map_item),
  Forall (fun it => P (snd it)) items -> P (CommentedMap lc items).

Fixpoint node_induction (x : node) : P x :=
  match x with
  | PyNone => P_None
  | Scalar s => P_Scalar s
  | CommentedSeq lc items =>
      P_Seq lc items
        ((fix go (l : list seq_item) : Forall (fun it => P (snd it)) l :=
            match l with
            | [] => Forall_nil _
            | it :: l' => Forall_cons it (node_induction (snd it)) (go l')
            end) items)
  | CommentedMap lc items =>
      P_Map lc items
        ((fix go (l : list map_item) : Forall (fun it => P (snd it)) l :=
            match l with
            | [] => Forall_nil _
            | it :: l' => Forall_cons it (node_induction (snd it)) (go l')
            end) items)
  end.

End node_induction.

(** ** The two recursive methods as the source writes them *)

Lemma _diff_yaml_maps_unfold lc_l items_l lc_r items_r :
  let left := CommentedMap lc_l items_l in
  let right := CommentedMap lc_r items_r in
  _diff_yaml_maps left right =
  (first <- for_each items_l
              (maps_body _diff_yaml_lists _diff_yaml_maps left right) ;;
   second <- for_each items_r (maps_right_body left right) ;;
   Ok (first ++ second)).
Proof. reflexivity. Qed.

Lemma nth_error_skipn_hd {A : Type} (l : list A) (n : nat) :
  nth_error l n = hd_error (skipn n l).
Proof.
  revert l; induction n as [|n IH]; intros [|a l]; simpl; auto.
Qed.

Lemma skipn_S_tl {A : Type} (l : list A) (n : nat) :
  skipn (S n) l = tl (skipn n l).
Proof.
  revert l; induction n as [|n IH]; intros [|a l]; try reflexivity.
  exact (IH l).
Qed.

Lemma fill_left_loop (body : nat -> node -> node -> result (list Diff))
    (idx : nat) (rs : list seq_item) :
  for_each_from idx rs (fun i it => body i PyNone (snd it)) =
  for_each (fill_left idx (seq_values rs)) (fun '(i, a, b) => body i a b).
Proof.
  revert idx; induction rs as [|r rs IH]; intros idx; [reflexivity|].
  simpl seq_values. simpl fill_left.
  rewrite for_each_from_cons, for_each_cons, IH. reflexivity.
Qed.

(** The loop split at [len(left)] is the loop over [zip_longest]. *)
Lemma split_loop_zip_longest
    (body : nat -> node -> node -> result (list Diff))
    (R : list seq_item) (L : list seq_item) (idx : nat) :
  (first <- for_each_from idx L
              (fun i it => body i (snd it) (item_or_fill R i)) ;;
   rest <- for_each_from (idx + List.length L) (skipn (idx + List.length L) R)
             (fun i it => body i PyNone (snd it)) ;;
   Ok (first ++ rest)) =
  for_each (zip_longest_from idx (seq_values L) (seq_values (skipn idx R)))
    (fun '(i, a, b) => body i a b).
Proof.
  revert idx; induction L as [|l L IH]; intros idx.
  - simpl. rewrite Nat.add_0_r. rewrite fill_left_loop.
    destruct (for_each _ _); reflexivity.
  - rewrite for_each_from_cons, !bind_assoc.
    replace (idx + List.length (l :: L))%nat with (S idx + List.length L)%nat
      by (simpl; lia).
    specialize (IH (S idx)). rewrite skipn_S_tl in IH.
    unfold seq_values in *. unfold item_or_fill at 1. rewrite nth_error_skipn_hd.
    destruct (skipn idx R) as [|[p r] R'] eqn:E; cbn [hd_error seq_values map
      zip_longest_from snd tl] in *;
      rewrite for_each_cons; destruct (body idx (snd l) _) as [d|e];
      cbn [bind]; try reflexivity;
      rewrite <- IH, !bind_assoc;
      (destruct (for_each_from (S idx) L _) as [ds|e]; cbn [bind]; [|reflexivity]);
      (destruct (for_each_from _ _ _) as [ds'|e]; cbn [bind]; [|reflexivity]);
      now rewrite app_assoc.
Qed.

Lemma _diff_yaml_lists_unfold lc_l items_l lc_r items_r :
  let left := CommentedSeq lc_l items_l in
  let right := CommentedSeq lc_r items_r in
  _diff_yaml_lists left right =
  for_each (zip_longest (seq_values items_l) (seq_values items_r))
    (fun '(idx, item_l, item_r) =>
       lists_body _diff_yaml_lists _diff_yaml_maps left right idx item_l item_r).
Proof.
  intros left right. unfold zip_longest.
  rewrite <- (split_loop_zip_longest
                (lists_body _diff_yaml_lists _diff_yaml_maps left right)
                items_r items_l 0).
  reflexivity.
Qed.

(** ** When a comparison appends nothing *)

Ltac ok_inv H :=
  repeat match type of H with
  | bind ?c ?k = Ok _ =>
      let a := fresh "a" in
      let Ha := fresh "Ha" in
      apply bind_ok_inv in H as (a & Ha & H)
  end.

Lemma lists_body_None recL recM (left right : node) idx (b : node) d :
  lists_body recL recM left right idx PyNone b = Ok d -> d <> [].
Proof.
  unfold lists_body; cbn [is_None]. intros H. ok_inv H.
  injection H as <-. discriminate.
Qed.

Lemma lists_body_empty_iff recL recM (left right : node) idx (a b : node) d :
  (forall ds, recL a b = Ok ds -> (ds = [] <-> quiet a b)) ->
  (forall ds, recM a b = Ok ds -> (ds = [] <-> quiet a b)) ->
  lists_body recL recM left right idx a b = Ok d ->
  (d = [] <-> is_None a = false /\ quiet a b).
Proof.
  intros HL HM H. unfold lists_body in H.
  destruct a as [|s|lc items|lc items]; cbn [is_None] in H.
  - ok_inv H. injection H as <-. split; [discriminate | intros [? _]; discriminate].
  - destruct b as [|t|lc' items'|lc' items']; cbn in H;
      try (ok_inv H; injection H as <-;
           split; [discriminate | intros [_ [? _]]; discriminate]).
    unfold quiet; cbn. destruct (py_ne s t).
    + ok_inv H. injection H as <-.
      split; [discriminate | intros [_ [? _]]; discriminate].
    + injection H as <-. tauto.
  - destruct b as [|t|lc' items'|lc' items']; cbn in H;
      try (ok_inv H; injection H as <-;
           split; [discriminate | intros [_ [? _]]; discriminate]).
    specialize (HL d H). tauto.
  - destruct b as [|t|lc' items'|lc' items']; cbn in H;
      try (ok_inv H; injection H as <-;
           split; [discriminate | intros [_ [? _]]; discriminate]).
    specialize (HM d H). tauto.
Qed.

Lemma maps_body_empty_iff recL recM (left : node) lc_r items_r
    (it : map_item) d :
  (forall b ds, recL (snd it) b = Ok ds -> (ds = [] <-> quiet (snd it) b)) ->
  (forall b ds, recM (snd it) b = Ok ds -> (ds = [] <-> quiet (snd it) b)) ->
  maps_body recL recM left (CommentedMap lc_r items_r) it = Ok d ->
  (d = [] <->
   match lookup (fst (fst (fst it))) items_r with
   | Some (_, _, _, v') => sem_eq (snd it) v'
   | None => false
   end = true /\ no_null_items (snd it) = true).
Proof.
  intros HL HM H. destruct it as [[[k kp] vp] v]. cbn [fst snd] in *.
  unfold maps_body in H. cbn [contains getitem lc_value node_lc] in H.
  destruct (lookup k items_r) as [[[[k' kp'] vp'] v']|]; cbn [negb bind] in H.
  2:{ injection H as <-. split; [discriminate | intros [? _]; discriminate]. }
  specialize (HL v'). specialize (HM v'). unfold quiet in HL, HM.
  destruct v as [|s|lc items|lc items];
    destruct v' as [|t|lc' items'|lc' items']; cbn in H;
    try (injection H as <-; cbn;
         split; [discriminate | intros [? _]; discriminate]).
  - injection H as <-. cbn. tauto.
  - cbn. destruct (py_ne s t); injection H as <-; cbn;
      [split; [discriminate | intros [? _]; discriminate] | tauto].
  - apply (HL d H).
  - apply (HM d H).
Qed.

Lemma maps_right_body_empty_iff lc_l items_l (right : node) (it : map_item) d :
  maps_right_body (CommentedMap lc_l items_l) right it = Ok d ->
  (d = [] <->
   match lookup (fst (fst (fst it))) items_l with
   | Some _ => true
   | None => false
   end = true).
Proof.
  destruct it as [[[k kp] vp] v]. cbn [fst snd].
  unfold maps_right_body. cbn [contains node_lc].
  destruct (lookup k items_l); cbn; intros H; injection H as <-;
    split; congruence.
Qed.

Lemma zip_loop_empty_iff recL recM (left right : node)
    (L : list seq_item) :
  Forall (fun it : seq_item =>
            (forall b ds, recL (snd it) b = Ok ds -> (ds = [] <-> quiet (snd it) b)) /\
            (forall b ds, recM (snd it) b = Ok ds -> (ds = [] <-> quiet (snd it) b))) L ->
  forall (R : list seq_item) idx ds,
  for_each (zip_longest_from idx (seq_values L) (seq_values R))
    (fun '(i, a, b) => lists_body recL recM left right i a b) = Ok ds ->
  (ds = [] <->
   all2 (fun x y : seq_item => sem_eq (snd x) (snd y)) L R = true /\
   forallb (fun it : seq_item =>
              negb (is_None (snd it)) && no_null_items (snd it)) L = true).
Proof.
  induction 1 as [|l L [HL HM] _ IH]; intros R idx ds H.
  - destruct R as [|r R]; cbn [seq_values map zip_longest_from fill_left] in H.
    + injection H as <-. cbn. tauto.
    + rewrite for_each_cons in H. ok_inv H. injection H as <-.
      apply lists_body_None in Ha. cbn [all2].
      split; [intros E; apply app_eq_nil in E as [E _]; contradiction
             | intros [? _]; discriminate].
  - destruct R as [|r R]; cbn [seq_values map zip_longest_from] in H;
      rewrite for_each_cons in H; ok_inv H; injection H as <-.
    + apply (lists_body_empty_iff _ _ _ _ _ _ _ _ (HL _) (HM _)) in Ha.
      unfold quiet in Ha. cbn [all2].
      split; [intros E; apply app_eq_nil in E as [E _] | intros [? _]; discriminate].
      apply Ha in E as [E1 [E2 _]]. destruct (snd l); discriminate.
    + apply (lists_body_empty_iff _ _ _ _ _ _ _ _ (HL _) (HM _)) in Ha.
      apply IH in Ha0. unfold quiet in Ha. cbn [all2 forallb].
      rewrite !andb_true_iff, negb_true_iff.
      split.
      * intros E. apply app_eq_nil in E as [E1 E2]. tauto.
      * intros E. assert (a = []) as -> by tauto.
        assert (a0 = []) as -> by tauto. reflexivity.
Qed.

(** Given that they return, the two recursive methods return the empty
    list exactly when the two nodes are the same data and the left one
    holds no null sequence item. *)
Lemma recursion_empty_iff (a : node) :
  (forall b ds, _diff_yaml_lists a b = Ok ds -> (ds = [] <-> quiet a b)) /\
  (forall b ds, _diff_yaml_maps a b = Ok ds -> (ds = [] <-> quiet a b)).
Proof.
  induction a as [| s | lc items IH | lc items IH] using node_induction;
    try (split; intros b ds H; destruct b; discriminate).
  - split; [|intros b ds H; destruct b; discriminate].
    intros [| t | lc' items' | lc' items'] ds H; try discriminate.
    rewrite _diff_yaml_lists_unfold in H. unfold zip_longest in H.
    apply (zip_loop_empty_iff _ _ _ _ _ IH) in H. exact H.
  - split; [intros b ds H; destruct b; discriminate|].
    intros [| t | lc' items' | lc' items'] ds H; try discriminate.
    rewrite _diff_yaml_maps_unfold in H. ok_inv H. injection H as <-.
    rewrite Forall_forall in IH.
    apply (for_each_empty_iff
             (fun it : map_item =>
                match lookup (fst (fst (fst it))) items' with
                | Some (_, _, _, v') => sem_eq (snd it) v'
                | None => false
                end = true /\ no_null_items (snd it) = true)) in Ha.
    2:{ intros it d Hin Hd.
        apply (maps_body_empty_iff _ _ _ _ _ _ _
                 (proj1 (IH it Hin)) (proj2 (IH it Hin)) Hd). }
    apply (for_each_empty_iff
             (fun it : map_item =>
                match lookup (fst (fst (fst it))) items with
                | Some _ => true
                | None => false
                end = true)) in Ha0.
    2:{ intros it d _ Hd. apply (maps_right_body_empty_iff _ _ _ _ _ Hd). }
    unfold quiet. cbn [sem_eq no_null_items].
    rewrite andb_true_iff, !forallb_forall.
    split.
    + intros E. apply app_eq_nil in E as [E1 E2].
      repeat split; intros it Hin; [apply Ha | apply Ha0 | apply Ha]; auto.
    + intros [[E1 E2] E3].
      assert (a = []) as -> by (apply Ha; intros it Hin; split; auto).
      assert (a0 = []) as -> by (apply Ha0; auto).
      reflexivity.
Qed.

Lemma diff_yaml_docs_empty_iff (a b : node) ds :
  diff_yaml_docs a b = Ok (PyList ds) -> (ds = [] <-> quiet a b).
Proof.
  unfold diff_yaml_docs. intros H.
  destruct (NodeType_eqb (_node_type a) (_node_type b)) eqn:E.
  - destruct a; cbn in H; try discriminate; ok_inv H; injection H as <-.
    + now apply (proj1 (recursion_empty_iff _)).
    + now apply (proj2 (recursion_empty_iff _)).
  - ok_inv H. discriminate.
Qed.

Lemma streams_body_empty_iff idx (a b : node) d :
  streams_body (idx, a, b) = Ok d -> (d = [] <-> quiet a b).
Proof.
  unfold streams_body, quiet. intros H.
  destruct a as [|s|lc items|lc items]; cbn [is_None] in H.
  - destruct b; cbn in H; try discriminate; injection H as <-;
      (split; [discriminate | intros [? _]; discriminate]).
  - destruct b; cbn in H; discriminate.
  - destruct b as [|t|lc' items'|lc' items']; cbn [is_None node_lc bind] in H;
      try (injection H as <-; split; [discriminate | intros [? _]; discriminate]).
    + cbn in H. discriminate.
    + ok_inv H. destruct a as [ds|]; [|discriminate]. injection H as <-.
      now apply diff_yaml_docs_empty_iff.
    + cbn in H. discriminate.
  - destruct b as [|t|lc' items'|lc' items']; cbn [is_None node_lc bind] in H;
      try (injection H as <-; split; [discriminate | intros [? _]; discriminate]).
    + cbn in H. discriminate.
    + cbn in H. discriminate.
    + ok_inv H. destruct a as [ds|]; [|discriminate]. injection H as <-.
      now apply diff_yaml_docs_empty_iff.
Qed.

Lemma streams_body_fill_left idx (b : node) d :
  streams_body (idx, PyNone, b) = Ok d -> d <> [].
Proof.
  cbn. intros H. ok_inv H. injection H as <-. discriminate.
Qed.

Lemma streams_body_fill_right idx (a : node) d :
  streams_body (idx, a, PyNone) = Ok d -> d <> [].
Proof.
  destruct a; cbn; intros H; try discriminate; injection H as <-; discriminate.
Qed.

Lemma streams_loop_empty_iff (L R : list node) idx ds :
  for_each (zip_longest_from idx L R) streams_body = Ok ds ->
  (ds = [] <->
   all2 sem_eq L R = true /\ forallb no_null_items L = true).
Proof.
  revert R idx ds. induction L as [|l L IH]; intros R idx ds H.
  - destruct R as [|r R]; cbn [zip_longest_from fill_left] in H.
    + injection H as <-. cbn. tauto.
    + rewrite for_each_cons in H. ok_inv H. injection H as <-.
      apply streams_body_fill_left in Ha. cbn [all2].
      split; [intros E; apply app_eq_nil in E as [E _]; contradiction
             | intros [? _]; discriminate].
  - destruct R as [|r R]; cbn [zip_longest_from] in H;
      rewrite for_each_cons in H; ok_inv H; injection H as <-.
    + apply streams_body_fill_right in Ha. cbn [all2].
      split; [intros E; apply app_eq_nil in E as [E _]; contradiction
             | intros [? _]; discriminate].
    + apply streams_body_empty_iff in Ha. apply IH in Ha0.
      unfold quiet in Ha. cbn [all2 forallb]. rewrite !andb_true_iff.
      split.
      * intros E. apply app_eq_nil in E as [E1 E2]. tauto.
      * intros E. assert (a = []) as -> by tauto.
        assert (a0 = []) as -> by tauto. reflexivity.
Qed.

Lemma try_load_ok skip_header_doc (s : stream) side contents :
  try_load skip_header_doc s side = Ok contents ->
  contents = compared skip_header_doc s.
Proof.
  unfold try_load, compared. destruct (load_all s); [|discriminate].
  destruct skip_header_doc; [|congruence].
  destruct (_ <? _)%nat; [discriminate | congruence].
Qed.

Lemma streams_empty_iff (l r : stream) skip_header_doc ds :
  diff_yaml_streams l r skip_header_doc = Ok ds ->
  (ds = [] <->
   all2 sem_eq (compared skip_header_doc l) (compared skip_header_doc r) = true
   /\ forallb no_null_items (compared skip_header_doc l) = true).
Proof.
  unfold diff_yaml_streams. intros H. ok_inv H.
  apply try_load_ok in Ha, Ha0. subst.
  now apply streams_loop_empty_iff in H.
Qed.

(** ** Symmetry of semantic identity *)

Local Abbreviation key_of it := (fst (fst (fst it))).

Lemma lookup_some k (items : list map_item) e :
  lookup k items = Some e -> In e items /\ key_eqb k (key_of e) = true.
Proof.
  induction items as [|[[[k' kp] vp] v] items IH]; cbn; [discriminate|].
  destruct (key_eqb k k') eqn:E.
  - intros [= <-]. auto.
  - intros H. apply IH in H as [? ?]. auto.
Qed.

Lemma lookup_none k (items : list map_item) e :
  lookup k items = None -> In e items -> key_eqb k (key_of e) = false.
Proof.
  induction items as [|[[[k' kp] vp] v] items IH]; cbn; [intros _ []|].
  destruct (key_eqb k k') eqn:E; [discriminate|].
  intros H [<-|Hin]; auto.
Qed.

Section Valid.

(** What a valid input brings with it: the key equality of [dict] is
    symmetric and transitive, and so is [!=] on leaves symmetric. *)
Hypothesis key_eqb_sym : forall a b : key, key_eqb a b = key_eqb b a.
Hypothesis key_eqb_trans : forall a b c : key,
  key_eqb a b = true -> key_eqb b c = true -> key_eqb a c = true.
Hypothesis py_ne_sym : forall s t : scalar, py_ne s t = py_ne t s.

(** In a [dict], a key finds the one entry it is equal to. *)
Lemma lookup_unique k (items : list map_item) e :
  keys_distinct items = true -> In e items ->
  key_eqb k (key_of e) = true -> lookup k items = Some e.
Proof.
  induction items as [|[[[k' kp] vp] v] items IH]; [intros _ []|].
  cbn [keys_distinct lookup fst]. rewrite andb_true_iff, negb_true_iff.
  intros [Hfresh Hd] Hin Hk.
  destruct Hin as [<-|Hin].
  - cbn [fst] in Hk. now rewrite Hk.
  - destruct (key_eqb k k') eqn:E; [|now apply IH].
    exfalso. rewrite key_eqb_sym in E.
    pose proof (key_eqb_trans _ _ _ E Hk) as Hk'.
    assert (existsb (fun it' : map_item => key_eqb k' (key_of it')) items = true)
      as Hex by (apply existsb_exists; eauto).
    congruence.
Qed.

(** Every entry of the right mapping is the match of an entry of the
    left one, when the two mappings are the same data. *)
Lemma sem_eq_map_onto lc_l (L : list map_item) lc_r (R : list map_item) e' :
  keys_distinct R = true ->
  sem_eq (CommentedMap lc_l L) (CommentedMap lc_r R) = true ->
  In e' R ->
  exists e, In e L /\ lookup (key_of e') L = Some e /\
            lookup (key_of e) R = Some e' /\ sem_eq (snd e) (snd e') = true.
Proof.
  cbn [sem_eq]. rewrite andb_true_iff, !forallb_forall.
  intros Hd [H1 H2] Hin.
  specialize (H2 e' Hin).
  destruct (lookup (key_of e') L) as [e|] eqn:El; [|discriminate].
  apply lookup_some in El as El'. destruct El' as [HeL Hk].
  specialize (H1 e HeL).
  rewrite key_eqb_sym in Hk.
  rewrite (lookup_unique _ _ _ Hd Hin Hk) in H1.
  exists e. repeat split; auto.
  - now apply lookup_unique.
  - destruct e' as [[[? ?] ?] ?]. exact H1.
Qed.

Lemma forallb_In {A : Type} (f : A -> bool) (l : list A) (x : A) :
  forallb f l = true -> In x l -> f x = true.
Proof. intros H. now apply forallb_forall. Qed.

Lemma sem_eq_sym (a : node) :
  forall b, well_formed b = true -> sem_eq a b = true -> sem_eq b a = true.
Proof.
  induction a as [| s | lc L IH | lc L IH] using node_induction;
    intros [| t | lc' R | lc' R] Hwf H; try discriminate; try reflexivity.
  - cbn in *. now rewrite py_ne_sym.
  - cbn [sem_eq well_formed] in *.
    revert R Hwf H. induction IH as [|l L Hl _ IHL]; intros [|r R] Hwf H;
      try discriminate; try reflexivity.
    cbn [all2 forallb] in *. apply andb_true_iff in H as [H1 H2].
    apply andb_true_iff in Hwf as [W1 W2].
    rewrite (Hl _ W1 H1), (IHL _ W2 H2). reflexivity.
  - pose proof Hwf as Hwf'. cbn [well_formed] in Hwf'.
    apply andb_true_iff in Hwf' as [Hd Hw].
    pose proof H as H'. cbn [sem_eq] in H'.
    apply andb_true_iff in H' as [H1 H2].
    rewrite Forall_forall in IH.
    cbn [sem_eq]. rewrite andb_true_iff, !forallb_forall. split.
    + intros e' Hin.
      destruct (sem_eq_map_onto _ _ _ _ _ Hd H Hin) as (e & HeL & El & _ & Hs).
      rewrite El. destruct e as [[[k kp] vp] v]. cbn [snd] in *.
      apply (IH _ HeL); auto. apply (forallb_In _ _ _ Hw Hin).
    + intros e HeL. pose proof (forallb_In _ _ _ H1 HeL) as He. cbn beta in He.
      destruct (lookup (key_of e) R) as [[[[? ?] ?] ?]|]; [reflexivity|discriminate].
Qed.

Lemma sem_eq_is_None (a b : node) :
  sem_eq a b = true -> is_None a = is_None b.
Proof. destruct a, b; cbn; congruence. Qed.

Lemma sem_eq_no_null_items (a : node) :
  forall b, well_formed b = true -> sem_eq a b = true ->
            no_null_items a = no_null_items b.
Proof.
  induction a as [| s | lc L IH | lc L IH] using node_induction;
    intros [| t | lc' R | lc' R] Hwf H; try discriminate; try reflexivity.
  - cbn [sem_eq well_formed no_null_items] in *.
    revert R Hwf H. induction IH as [|l L Hl _ IHL]; intros [|r R] Hwf H;
      try discriminate; try reflexivity.
    cbn [all2 forallb] in *. apply andb_true_iff in H as [H1 H2].
    apply andb_true_iff in Hwf as [W1 W2].
    rewrite (Hl _ W1 H1), (IHL _ W2 H2), (sem_eq_is_None _ _ H1). reflexivity.
  - pose proof Hwf as Hwf'. cbn [well_formed] in Hwf'.
    apply andb_true_iff in Hwf' as [Hd Hw].
    pose proof H as H'. cbn [sem_eq] in H'.
    apply andb_true_iff in H' as [H1 H2].
    rewrite Forall_forall in IH.
    cbn [no_null_items]. apply eq_true_iff_eq. rewrite !forallb_forall. split.
    + intros HL e' Hin.
      destruct (sem_eq_map_onto _ _ _ _ _ Hd H Hin) as (e & HeL & _ & _ & Hs).
      rewrite <- (IH _ HeL _ (forallb_In _ _ _ Hw Hin) Hs). now apply HL.
    + intros HR e HeL. pose proof (forallb_In _ _ _ H1 HeL) as He. cbn beta in He.
      destruct (lookup (key_of e) R) as [e'|] eqn:El; [|discriminate].
      apply lookup_some in El as [Hin _]. destruct e' as [[[k' kp'] vp'] v'].
      rewrite (IH _ HeL _ (forallb_In _ _ _ Hw Hin) He).
      apply (HR _ Hin).
Qed.

Lemma docs_quiet_sym (L R : list node) :
  forallb well_formed R = true ->
  all2 sem_eq L R = true /\ forallb no_null_items L = true ->
  all2 sem_eq R L = true /\ forallb no_null_items R = true.
Proof.
  revert R. induction L as [|l L IH]; intros [|r R] Hwf [H1 H2];
    try discriminate; [split; reflexivity|].
  cbn [all2 forallb] in *.
  apply andb_true_iff in Hwf as [W1 W2].
  apply andb_true_iff in H1 as [S1 S2].
  apply andb_true_iff in H2 as [N1 N2].
  destruct (IH R W2 (conj S2 N2)) as [-> ->].
  rewrite (sem_eq_sym _ _ W1 S1), <- (sem_eq_no_null_items _ _ W1 S1), N1.
  split; reflexivity.
Qed.

(** ** Identity *)

Section Identity.

Hypothesis key_eqb_refl : forall k : key, key_eqb k k = true.

Lemma flat_map_nil {A B : Type} (l : list A) :
  flat_map (fun _ : A => @nil B) l = [].
Proof. induction l; auto. Qed.

Lemma zip_loop_identity recL recM (left right : node) (L : list seq_item) :
  Forall (fun it : seq_item =>
            (_node_type (snd it) = LIST -> recL (snd it) (snd it) = Ok []) /\
            (_node_type (snd it) = MAP -> recM (snd it) (snd it) = Ok []) /\
            is_None (snd it) = false /\ self_equal (snd it) = true) L ->
  forall idx,
  for_each (zip_longest_from idx (seq_values L) (seq_values L))
    (fun '(i, a, b) => lists_body recL recM left right i a b) = Ok [].
Proof.
  induction 1 as [|[p x] L (HL & HM & HN & HS) _ IH]; intros idx; [reflexivity|].
  cbn [seq_values map zip_longest_from snd] in *. rewrite for_each_cons.
  unfold seq_values in IH. rewrite IH.
  assert (lists_body recL recM left right idx x x = Ok []) as ->; [|reflexivity].
  unfold lists_body. rewrite HN, NodeType_eqb_refl.
  destruct x as [|s|lc items|lc items]; cbn in *; auto.
  apply negb_true_iff in HS. now rewrite HS.
Qed.

Lemma recursion_identity (x : node) :
  well_formed x = true -> no_null_items x = true -> self_equal x = true ->
  (_node_type x = LIST -> _diff_yaml_lists x x = Ok []) /\
  (_node_type x = MAP -> _diff_yaml_maps x x = Ok []).
Proof.
  induction x as [| s | lc L IH | lc L IH] using node_induction;
    intros Hwf Hnn Hse; (split; [intros E | intros E]); try discriminate.
  - rewrite _diff_yaml_lists_unfold. unfold zip_longest.
    apply zip_loop_identity.
    cbn [well_formed no_null_items self_equal] in *.
    rewrite Forall_forall in *. intros it Hin.
    pose proof (forallb_In _ _ _ Hwf Hin) as W.
    pose proof (forallb_In _ _ _ Hnn Hin) as N.
    pose proof (forallb_In _ _ _ Hse Hin) as S. cbn beta in *.
    apply andb_true_iff in N as [N1 N2]. apply negb_true_iff in N1.
    destruct (IH it Hin W N2 S). auto.
  - rewrite _diff_yaml_maps_unfold.
    cbn [well_formed no_null_items self_equal] in *.
    apply andb_true_iff in Hwf as [Hd Hwf].
    rewrite Forall_forall in IH.
    rewrite (for_each_all_ok _ _ (fun _ => [])), flat_map_nil.
    2:{ intros [[[k kp] vp] v] Hin.
        pose proof (forallb_In _ _ _ Hwf Hin) as W.
        pose proof (forallb_In _ _ _ Hnn Hin) as N.
        pose proof (forallb_In _ _ _ Hse Hin) as S. cbn [snd] in *.
        destruct (IH _ Hin W N S) as [HL HM]. cbn [snd] in *.
        unfold maps_body. cbn [contains getitem].
        rewrite (lookup_unique k L _ Hd Hin (key_eqb_refl k)).
        cbn [negb bind]. rewrite NodeType_eqb_refl.
        destruct v as [|s|lc' items|lc' items]; cbn in *; auto.
        apply negb_true_iff in S. now rewrite S. }
    rewrite (for_each_all_ok _ _ (fun _ => [])), flat_map_nil; [reflexivity|].
    intros [[[k kp] vp] v] Hin. unfold maps_right_body. cbn [contains].
    now rewrite (lookup_unique k L _ Hd Hin (key_eqb_refl k)).
Qed.

(** C2 (as amended): a document that is a mapping or a sequence, with
    pairwise different keys in every mapping, no null item in any
    sequence and leaves equal to themselves, compared with itself by
    [diff_yaml_docs] gives the empty list; a document that is a bare
    scalar or absent makes [diff_yaml_docs] raise [DiffError]. *)
Theorem diff_yaml_docs_identity (x : node) :
  well_formed x = true -> no_null_items x = true -> self_equal x = true ->
  diff_yaml_docs x x =
  match _node_type x with
  | MAP | LIST => Ok (PyList [])
  | NULL | SCALAR => Raise (DiffError "Unknown YAML root node type")
  end.
Proof.
  intros Hwf Hnn Hse. unfold diff_yaml_docs. rewrite NodeType_eqb_refl.
  destruct (recursion_identity x Hwf Hnn Hse) as [HL HM].
  destruct (_node_type x); try reflexivity.
  - now rewrite HM.
  - now rewrite HL.
Qed.

End Identity.

(** ** Symmetry of detection *)

Lemma stream_well_formed_compared skip_header_doc (s : stream) :
  stream_well_formed s = true ->
  forallb well_formed (compared skip_header_doc s) = true.
Proof.
  unfold stream_well_formed, compared.
  destruct (load_all s) as [c|]; [|reflexivity].
  destruct skip_header_doc; [|auto].
  destruct c as [|d c]; cbn; [reflexivity|].
  rewrite andb_true_iff. tauto.
Qed.

(** C9: for well-formed streams A and B on which both calls return,
    [diff_yaml_streams A B] is non-empty exactly when
    [diff_yaml_streams B A] is. *)
Theorem diff_yaml_streams_detection_symmetric (A B : stream)
    skip_header_doc ds1 ds2 :
  stream_well_formed A = true -> stream_well_formed B = true ->
  diff_yaml_streams A B skip_header_doc = Ok ds1 ->
  diff_yaml_streams B A skip_header_doc = Ok ds2 ->
  (ds1 <> [] <-> ds2 <> []).
Proof.
  intros WA WB H1 H2.
  apply (stream_well_formed_compared skip_header_doc) in WA, WB.
  apply streams_empty_iff in H1, H2.
  pose proof (docs_quiet_sym (compared skip_header_doc A) _ WB) as S1.
  pose proof (docs_quiet_sym (compared skip_header_doc B) _ WA) as S2.
  rewrite H1, H2. tauto.
Qed.

End Valid.

(** ** The stream differ *)





(** C3 (as amended): when both documents classify as scalar, or both as
    absent, [diff_yaml_docs] compares nothing and returns no record: it
    raises [DiffError('Unknown YAML root node type')]. *)
Theorem diff_yaml_docs_scalar_or_absent_raises (l r : node) :
  _node_type l = _node_type r ->
  _node_type l = SCALAR \/ _node_type l = NULL ->
  diff_yaml_docs l r = Raise (DiffError "Unknown YAML root node type").
Proof.
  intros E H. unfold diff_yaml_docs. rewrite <- E, NodeType_eqb_refl.
  destruct H as [-> | ->]; reflexivity.
Qed.

(** C5 (as amended): with [skip_header_doc] set, when the left stream
    loads with fewer than 2 documents, or both streams load and the
    right one has fewer than 2, the call raises [DiffError] with the one
    fixed message, which names no side, and returns no record. *)
Theorem header_skip_failure (l r : stream) (contents_l : list node) :
  load_all l = Loaded contents_l ->
  (List.length contents_l < 2)%nat \/
  (exists contents_r,
     load_all r = Loaded contents_r /\ (List.length contents_r < 2)%nat) ->
  diff_yaml_streams l r true =
  Raise (DiffError "Cannot skip header: no header YAML document found").
Proof.
  intros Hl H. unfold diff_yaml_streams, try_load. rewrite Hl.
  destruct (List.length contents_l <? 2)%nat eqn:E; [reflexivity|].
  apply Nat.ltb_ge in E.
  destruct H as [H | (contents_r & Hr & H)]; [lia|].
  rewrite Hr. apply Nat.ltb_lt in H. cbn [bind]. now rewrite H.
Qed.

(** C8 (as amended): when the left input is malformed, or the left input
    passes [try_load] and the right input is malformed, the call raises
    [DiffError] with a message that names the stream and carries the
    line and the column of the parser's mark, each plus one; no record
    is returned. *)
Theorem malformed_input_aborts (l r s : stream) skip_header_doc
    (side : string) mark_line mark_column context problem :
  (side = "left" /\ s = l) \/
  (side = "right" /\ s = r /\
   exists contents_l, try_load skip_header_doc l "left" = Ok contents_l) ->
  load_all s = MarkedYAMLError mark_line mark_column context problem ->
  diff_yaml_streams l r skip_header_doc =
  Raise (DiffError
           ("Error parsing YAML stream " ++ dquote ++
            match stream_name s with Some n => n | None => side end ++
            dquote ++ ":" ++ newline ++
            str_int (mark_line + 1) ++ ":" ++ str_int (mark_column + 1) ++
            " " ++ context ++ ": " ++ problem)).
Proof.
  intros [[-> ->] | (-> & -> & contents_l & Hl)] Hs; unfold diff_yaml_streams.
  - unfold try_load at 1. rewrite Hs. reflexivity.
  - rewrite Hl. cbn [bind]. unfold try_load. rewrite Hs. reflexivity.
Qed.

(** A null document against a mapping or a sequence: the one
    "<no document>" record, placed at the start of the other document. *)
Lemma streams_body_null_left idx (doc_r : node) lc :
  node_lc doc_r = Ok lc ->
  streams_body (idx, PyNone, doc_r) =
  Ok [mkDiff "<no document>" (yaml_document idx)
        None (Some (from_lc (LcObject lc)))].
Proof. intros H. cbn. now rewrite H. Qed.

(** ** Mappings *)

(** A key on both sides whose two values classify as absent appends
    nothing. *)
Lemma maps_body_both_absent recL recM (left : node) lc_r items_r
    k kp vp k' kp' vp' :
  lookup k items_r = Some (k', kp', vp', PyNone) ->
  maps_body recL recM left (CommentedMap lc_r items_r) (k, kp, vp, PyNone) =
  Ok [].
Proof. intros H. unfold maps_body. cbn. now rewrite H. Qed.

(** A key on both sides whose two values classify differently appends
    one record that names the two kinds, whatever the recursive methods
    would do. *)
Lemma maps_body_type_mismatch recL recM (left : node) lc_r items_r
    k kp vp v k' kp' vp' v' :
  lookup k items_r = Some (k', kp', vp', v') ->
  _node_type v <> _node_type v' ->
  maps_body recL recM left (CommentedMap lc_r items_r) (k, kp, vp, v) =
  Ok [mkDiff ("<node of type " ++ NodeType_value (_node_type v) ++ "> " ++ str_key k)
             ("<node of type " ++ NodeType_value (_node_type v') ++ "> " ++ str_key k)
        (Some (from_lc (LcTuple vp))) (Some (from_lc (LcTuple vp')))].
Proof.
  intros H Ht. unfold maps_body. cbn [contains getitem lc_value].
  rewrite H. cbn [negb bind].
  destruct (NodeType_eqb (_node_type v) (_node_type v')) eqn:E; [|reflexivity].
  apply NodeType_eqb_eq in E. contradiction.
Qed.

Lemma flat_map_filter {A B : Type} (p : A -> bool) (f : A -> B) (l : list A) :
  flat_map (fun x => if p x then [f x] else []) l = map f (filter p l).
Proof.
  induction l as [|x l IH]; [reflexivity|].
  cbn. destruct (p x); cbn; now rewrite IH.
Qed.

Lemma filter_all_true {A : Type} (p : A -> bool) (l : list A) :
  (forall x, In x l -> p x = true) -> filter p l = l.
Proof.
  induction l as [|x l IH]; intros H; [reflexivity|].
  cbn. rewrite (H x (or_introl eq_refl)), IH; [reflexivity|].
  intros y Hy. apply H. now right.
Qed.

(** C6: when every key shared by the two mappings compares without a
    record, [_diff_yaml_maps] returns one "missing key" record for each
    key of the left mapping that the right one lacks, in the left
    mapping's order, followed by one for each key of the right mapping
    that the left one lacks, in the right mapping's order; their number
    is the sum of the two counts. *)
Theorem missing_key_coverage lc_l (L : list map_item) lc_r (R : list map_item) :
  (forall it, In it L -> lookup (key_of it) R <> None ->
     maps_body _diff_yaml_lists _diff_yaml_maps
       (CommentedMap lc_l L) (CommentedMap lc_r R) it = Ok []) ->
  exists ds,
    _diff_yaml_maps (CommentedMap lc_l L) (CommentedMap lc_r R) = Ok ds /\
    ds = map (missing_in_right lc_r) (only_in L R) ++
         map (missing_in_left lc_l) (only_in R L) /\
    List.length (filter is_missing_key ds) =
    (List.length (only_in L R) + List.length (only_in R L))%nat.
Proof.
  intros Hshared. eexists. split; [|split; [reflexivity|]].
  - rewrite _diff_yaml_maps_unfold.
    rewrite (for_each_all_ok _ _
               (fun it : map_item =>
                  if match lookup (key_of it) R with
                     | Some _ => false
                     | None => true
                     end
                  then [missing_in_right lc_r it] else [])).
    2:{ intros it Hin. specialize (Hshared it Hin).
        destruct (lookup (key_of it) R) eqn:E.
        - apply Hshared. discriminate.
        - destruct it as [[[k kp] vp] v]. cbn [fst] in E.
          unfold maps_body. cbn [contains]. rewrite E. reflexivity. }
    rewrite (for_each_all_ok _ _
               (fun it : map_item =>
                  if match lookup (key_of it) L with
                     | Some _ => false
                     | None => true
                     end
                  then [missing_in_left lc_l it] else [])).
    2:{ intros [[[k kp] vp] v] _. unfold maps_right_body. cbn [contains fst].
        destruct (lookup k L); reflexivity. }
    cbn [bind]. rewrite !flat_map_filter. reflexivity.
  - rewrite filter_all_true, length_app, !length_map; [reflexivity|].
    intros d Hd. apply in_app_or in Hd as [Hd|Hd];
      apply in_map_iff in Hd as (it & <- & _); unfold is_missing_key; cbn;
      [apply orb_true_r | reflexivity].
Qed.

(** ** Exceptions of the two recursive methods *)

(** A result that is a list, or the failure of a position lookup. *)
Definition lookup_failure_only (r : result (list Diff)) : Prop :=
  match r with
  | Ok _ => True
  | Raise e => e = KeyError \/ e = TypeError
  end.

Lemma lookup_failure_only_bind (c : result (list Diff))
    (k : list Diff -> result (list Diff)) :
  lookup_failure_only c -> (forall a, lookup_failure_only (k a)) -> lookup_failure_only (bind c k).
Proof. destruct c; cbn; auto. Qed.

Lemma for_each_lookup_failure_only {A : Type} (xs : list A)
    (body : A -> result (list Diff)) :
  (forall x, In x xs -> lookup_failure_only (body x)) ->
  lookup_failure_only (for_each xs body).
Proof.
  induction xs as [|x xs IH]; intros H; [exact I|].
  rewrite for_each_cons. apply lookup_failure_only_bind; [apply H; now left|].
  intros a. apply lookup_failure_only_bind; [|intros; exact I].
  apply IH. intros y Hy. apply H. now right.
Qed.

Lemma lc_item_seq_cases lc (items : list (Z * Z * node)) idx :
  (exists p x, nth_error items idx = Some (p, x) /\
               lc_item (CommentedSeq lc items) idx = Ok p) \/
  (nth_error items idx = None /\
   exists e, lc_item (CommentedSeq lc items) idx = Raise e /\
             (e = KeyError \/ e = TypeError)).
Proof.
  cbn. destruct (nth_error items idx) as [[p x]|]; [left; eauto | right].
  split; [reflexivity|]. destruct items; eauto.
Qed.

Lemma lists_body_lookup_failure_only recL recM lc_l items_l lc_r items_r idx
    (a b : node) :
  (_node_type a = LIST -> _node_type b = LIST -> lookup_failure_only (recL a b)) ->
  (_node_type a = MAP -> _node_type b = MAP -> lookup_failure_only (recM a b)) ->
  lookup_failure_only
    (lists_body recL recM (CommentedSeq lc_l items_l) (CommentedSeq lc_r items_r)
       idx a b).
Proof.
  intros HL HM. unfold lists_body. cbn [node_lc bind].
  destruct (lc_item_seq_cases lc_l items_l idx)
    as [(pl & xl & _ & ->)|(_ & el & -> & Hel)];
    destruct (lc_item_seq_cases lc_r items_r idx)
      as [(pr & xr & _ & ->)|(_ & er & -> & Her)];
    destruct a, b; cbn; auto;
    try (destruct (py_ne _ _); cbn; auto).
Qed.

Lemma zip_loop_lookup_failure_only recL recM lc_l items_l lc_r items_r
    (L : list seq_item) :
  Forall (fun it : seq_item =>
            forall b,
              (_node_type (snd it) = LIST -> _node_type b = LIST ->
               lookup_failure_only (recL (snd it) b)) /\
              (_node_type (snd it) = MAP -> _node_type b = MAP ->
               lookup_failure_only (recM (snd it) b))) L ->
  forall (R : list seq_item) idx,
  lookup_failure_only
    (for_each (zip_longest_from idx (seq_values L) (seq_values R))
       (fun '(i, a, b) =>
          lists_body recL recM (CommentedSeq lc_l items_l)
            (CommentedSeq lc_r items_r) i a b)).
Proof.
  induction 1 as [|l L Hl _ IH]; intros R idx.
  - cbn [seq_values map zip_longest_from]. revert idx.
    induction R as [|r R IHR]; intros idx; [exact I|].
    cbn [seq_values map fill_left]. rewrite for_each_cons.
    apply lookup_failure_only_bind.
    + apply lists_body_lookup_failure_only; discriminate.
    + intros a. apply lookup_failure_only_bind; [apply IHR | intros; exact I].
  - destruct R as [|r R]; cbn [seq_values map zip_longest_from];
      rewrite for_each_cons; apply lookup_failure_only_bind;
      try (apply lists_body_lookup_failure_only; apply Hl);
      intros a; (apply lookup_failure_only_bind; [|intros; exact I]).
    + apply (IH []).
    + apply (IH R).
Qed.

Lemma recursion_lookup_failure_only (a : node) :
  forall b,
    (_node_type a = LIST -> _node_type b = LIST ->
     lookup_failure_only (_diff_yaml_lists a b)) /\
    (_node_type a = MAP -> _node_type b = MAP ->
     lookup_failure_only (_diff_yaml_maps a b)).
Proof.
  induction a as [| s | lc L IH | lc L IH] using node_induction;
    intros b; (split; [intros Ea Eb | intros Ea Eb]); try discriminate;
    destruct b as [| t | lc' R | lc' R]; try discriminate.
  - rewrite _diff_yaml_lists_unfold. now apply zip_loop_lookup_failure_only.
  - rewrite _diff_yaml_maps_unfold. rewrite Forall_forall in IH.
    apply lookup_failure_only_bind.
    + apply for_each_lookup_failure_only. intros [[[k kp] vp] v] Hin.
      unfold maps_body. cbn [contains getitem lc_value node_lc].
      destruct (lookup k R) as [[[[k' kp'] vp'] v']|]; cbn [negb bind];
        [|exact I].
      destruct (IH _ Hin v') as [HL HM]. cbn [snd] in HL, HM.
      destruct v, v'; cbn; auto; try (destruct (py_ne _ _); cbn; auto).
    + intros a. apply lookup_failure_only_bind; [|intros; exact I].
      apply for_each_lookup_failure_only. intros [[[k kp] vp] v] _.
      unfold maps_right_body. cbn [contains node_lc].
      destruct (lookup k L); exact I.
Qed.

(** The assertion of each recursive method fails exactly when one of
    its two arguments is not of the method's kind. *)
Theorem recursive_methods_assertion (left right : node) :
  (_diff_yaml_maps left right = Raise AssertionError <->
   ~ (_node_type left = MAP /\ _node_type right = MAP)) /\
  (_diff_yaml_lists left right = Raise AssertionError <->
   ~ (_node_type left = LIST /\ _node_type right = LIST)).
Proof.
  destruct (recursion_lookup_failure_only left right) as [HL HM].
  split; split.
  - intros H [El Er]. specialize (HM El Er). rewrite H in HM.
    destruct HM as [HM|HM]; discriminate HM.
  - intros H. destruct left, right; try reflexivity.
    exfalso. apply H. split; reflexivity.
  - intros H [El Er]. specialize (HL El Er). rewrite H in HL.
    destruct HL as [HL|HL]; discriminate HL.
  - intros H. destruct left, right; try reflexivity.
    exfalso. apply H. split; reflexivity.
Qed.

(** ** When the comparison returns *)

(** The record of [_diff_yaml_lists] for an item the left sequence does
    not reach. *)
Definition missing_item_left (lc_l : LineCol) (it : seq_item) : Diff :=
  mkDiff "<missing item>" (py_str (snd it))
    (Some (from_lc (LcObject lc_l))) (Some (from_lc (LcTuple (fst it)))).

Lemma for_each_total {A B : Type} (xs : list A) (body : A -> result (list B)) :
  (forall x, In x xs -> exists d, body x = Ok d) ->
  exists ds, for_each xs body = Ok ds.
Proof.
  induction xs as [|x xs IH]; intros H; [now exists []|].
  destruct (H x (or_introl eq_refl)) as [d Hd].
  destruct IH as [ds Hds]; [intros y Hy; apply H; now right|].
  exists (d ++ ds). now rewrite for_each_cons, Hd, Hds.
Qed.

Lemma skipn_cons_inv {A : Type} (l : list A) idx x rest :
  skipn idx l = x :: rest ->
  nth_error l idx = Some x /\ skipn (S idx) l = rest.
Proof.
  intros E. rewrite nth_error_skipn_hd, skipn_S_tl, E. auto.
Qed.

(** Past the end of the left sequence, every item of the right one gives
    its "<missing item>" record. *)
Lemma fill_left_records recL recM lc_l (items_l : list (Z * Z * node))
    lc_r (items_r : list (Z * Z * node)) (Rs : list seq_item) :
  forall idx, skipn idx items_r = Rs ->
  for_each (fill_left idx (seq_values Rs))
    (fun '(i, a, b) =>
       lists_body recL recM (CommentedSeq lc_l items_l)
         (CommentedSeq lc_r items_r) i a b) =
  Ok (map (missing_item_left lc_l) Rs).
Proof.
  induction Rs as [|[p r] Rs IH]; intros idx E; [reflexivity|].
  apply skipn_cons_inv in E as [En Es].
  cbn [seq_values map fill_left]. rewrite for_each_cons.
  unfold seq_values in IH. rewrite (IH _ Es).
  unfold lists_body at 1. cbn [is_None node_lc lc_item bind]. rewrite En.
  reflexivity.
Qed.

Lemma lists_body_total recL recM lc_l (items_l : list (Z * Z * node))
    lc_r (items_r : list (Z * Z * node)) idx (a b : node) pl :
  is_None a = false ->
  nth_error items_l idx = Some (pl, a) ->
  (is_None b = false -> exists pr, nth_error items_r idx = Some (pr, b)) ->
  (_node_type a = LIST -> _node_type b = LIST -> exists ds, recL a b = Ok ds) ->
  (_node_type a = MAP -> _node_type b = MAP -> exists ds, recM a b = Ok ds) ->
  exists d,
    lists_body recL recM (CommentedSeq lc_l items_l) (CommentedSeq lc_r items_r)
      idx a b = Ok d.
Proof.
  intros Ha El Er HL HM. unfold lists_body. rewrite Ha.
  cbn [lc_item node_lc]. rewrite El. cbn [bind].
  destruct (is_None b) eqn:Eb; [eauto|].
  destruct (Er eq_refl) as [pr ->]. cbn [bind].
  destruct a, b; cbn in *; try discriminate; eauto.
  destruct (py_ne _ _); eauto.
Qed.

Lemma zip_loop_total recL recM lc_l (items_l : list (Z * Z * node))
    lc_r (items_r : list (Z * Z * node)) (Ls : list seq_item) :
  Forall (fun it : seq_item =>
            is_None (snd it) = false /\
            forall b,
              (_node_type (snd it) = LIST -> _node_type b = LIST ->
               exists ds, recL (snd it) b = Ok ds) /\
              (_node_type (snd it) = MAP -> _node_type b = MAP ->
               exists ds, recM (snd it) b = Ok ds)) Ls ->
  forall idx, skipn idx items_l = Ls ->
  exists ds,
    for_each (zip_longest_from idx (seq_values Ls)
                (seq_values (skipn idx items_r)))
      (fun '(i, a, b) =>
         lists_body recL recM (CommentedSeq lc_l items_l)
           (CommentedSeq lc_r items_r) i a b) = Ok ds.
Proof.
  induction 1 as [|[pl a] Ls [Ha Hrec] _ IH]; intros idx E.
  - cbn [seq_values map zip_longest_from].
    eexists. now apply (fill_left_records recL recM lc_l items_l lc_r items_r).
  - apply skipn_cons_inv in E as [En Es]. cbn [snd] in *.
    specialize (IH _ Es). rewrite skipn_S_tl in IH. unfold seq_values in *.
    destruct (skipn idx items_r) as [|[pr b] Rs] eqn:Er;
      cbn [map zip_longest_from snd tl] in *;
      rewrite for_each_cons; destruct IH as [ds ->].
    + destruct (lists_body_total recL recM lc_l items_l lc_r items_r idx
                  a PyNone pl Ha En) as [d ->];
        try (cbn; intros; discriminate). cbn. eauto.
    + apply skipn_cons_inv in Er as [Ern _].
      destruct (lists_body_total recL recM lc_l items_l lc_r items_r idx
                  a b pl Ha En) as [d ->];
        [eauto | apply Hrec | apply Hrec | cbn; eauto].
Qed.

Lemma recursion_total (a : node) :
  no_null_items a = true ->
  forall b,
    (_node_type a = LIST -> _node_type b = LIST ->
     exists ds, _diff_yaml_lists a b = Ok ds) /\
    (_node_type a = MAP -> _node_type b = MAP ->
     exists ds, _diff_yaml_maps a b = Ok ds).
Proof.
  induction a as [| s | lc L IH | lc L IH] using node_induction;
    intros Hnn b; (split; [intros Ea Eb | intros Ea Eb]); try discriminate;
    destruct b as [| t | lc' R | lc' R]; try discriminate.
  - rewrite _diff_yaml_lists_unfold. unfold zip_longest.
    apply (zip_loop_total _ _ lc L lc' R L) with (idx := 0%nat); [|reflexivity].
    cbn [no_null_items] in Hnn. rewrite Forall_forall in *.
    intros it Hin. pose proof (forallb_In _ _ _ Hnn Hin) as N. cbn beta in N.
    apply andb_true_iff in N as [N1 N2]. apply negb_true_iff in N1.
    split; [exact N1 | exact (IH it Hin N2)].
  - rewrite _diff_yaml_maps_unfold. cbn [no_null_items] in Hnn.
    rewrite Forall_forall in IH.
    match goal with
    | |- context [@for_each ?A ?B L ?f] =>
        destruct (@for_each_total A B L f) as [d1 Hd1]; [|rewrite Hd1]
    end.
    { intros [[[k kp] vp] v] Hin.
      pose proof (forallb_In _ _ _ Hnn Hin) as N. cbn [snd] in N.
      unfold maps_body. cbn [contains getitem lc_value node_lc].
      destruct (lookup k R) as [[[[k' kp'] vp'] v']|]; cbn [negb bind]; [|eauto].
      destruct (IH _ Hin N v') as [HL HM]. cbn [snd] in HL, HM.
      destruct v, v'; cbn; eauto; destruct (py_ne _ _); eauto. }
    match goal with
    | |- context [@for_each ?A ?B R ?f] =>
        destruct (@for_each_total A B R f) as [d2 Hd2]; [|rewrite Hd2]
    end.
    { intros [[[k kp] vp] v] _. unfold maps_right_body. cbn [contains node_lc].
      destruct (lookup k L); cbn; eauto. }
    cbn. eauto.
Qed.

(** Two documents of the same container kind, the left one without a
    null item in any sequence, and neither holding a byte string (which
    [node] leaves out): [diff_yaml_docs] returns a list. *)
Theorem diff_yaml_docs_returns (left right : node) :
  no_null_items left = true ->
  _node_type left = _node_type right ->
  _node_type left = MAP \/ _node_type left = LIST ->
  exists ds, diff_yaml_docs left right = Ok (PyList ds).
Proof.
  intros Hnn E H. unfold diff_yaml_docs. rewrite <- E, NodeType_eqb_refl.
  destruct (recursion_total left Hnn right) as [HL HM].
  destruct H as [Hm | Hl].
  - rewrite Hm. destruct (HM Hm) as [ds ->]; [congruence|]. cbn. eauto.
  - rewrite Hl. destruct (HL Hl) as [ds ->]; [congruence|]. cbn. eauto.
Qed.

(** ** Documents of different kinds *)

(** The context [diff_yaml_docs] attaches to a side that has an [lc]. *)
Definition doc_context (x : node) : option DiffContext :=
  match node_lc x with
  | Ok lc => Some (from_lc (LcObject lc))
  | Raise _ => None
  end.

(** Two documents of different kinds, one of them a bare scalar:
    [diff_yaml_docs] raises [AttributeError], a scalar has no [lc]. *)
Theorem diff_yaml_docs_scalar_mismatch (left right : node) :
  _node_type left <> _node_type right ->
  _node_type left = SCALAR \/ _node_type right = SCALAR ->
  diff_yaml_docs left right = Raise AttributeError.
Proof.
  intros Hne H. unfold diff_yaml_docs.
  destruct left, right; cbn in *; try reflexivity;
    try (exfalso; apply Hne; reflexivity);
    destruct H; discriminate.
Qed.

(** Two documents of different kinds, neither a bare scalar:
    [diff_yaml_docs] returns one bare record that names the two kinds,
    with a position on each side that is not absent and none on a side
    that is. *)
Theorem diff_yaml_docs_container_mismatch (left right : node) :
  _node_type left <> _node_type right ->
  _node_type left <> SCALAR -> _node_type right <> SCALAR ->
  diff_yaml_docs left right =
  Ok (PyDiff
        (mkDiff
           ("<top-level node of type " ++ NodeType_value (_node_type left) ++ ">")
           ("<top-level node of type " ++ NodeType_value (_node_type right) ++ ">")
           (doc_context left) (doc_context right))) /\
  (doc_context left = None <-> left = PyNone) /\
  (doc_context right = None <-> right = PyNone).
Proof.
  intros Hne Hl Hr. unfold diff_yaml_docs, doc_context.
  destruct left, right; cbn in *;
    try (exfalso; apply Hne; reflexivity);
    try (exfalso; apply Hl; reflexivity);
    try (exfalso; apply Hr; reflexivity);
    (split; [reflexivity | split; split; congruence]).
Qed.

(** ** Skipping the header *)

(** When each stream loads with a header and at least one more
    document, comparing with [skip_header_doc] set is comparing the
    streams of the remaining documents without it. *)
Theorem skip_header_is_diff_of_tails (l r : stream) h_l d_l rest_l h_r d_r rest_r :
  load_all l = Loaded (h_l :: d_l :: rest_l) ->
  load_all r = Loaded (h_r :: d_r :: rest_r) ->
  diff_yaml_streams l r true =
  diff_yaml_streams (mkStream (stream_name l) (Loaded (d_l :: rest_l)))
                    (mkStream (stream_name r) (Loaded (d_r :: rest_r))) false.
Proof.
  intros Hl Hr. unfold diff_yaml_streams, try_load. rewrite Hl, Hr. reflexivity.
Qed.

(** ** Sequences of different lengths *)

Lemma for_each_ok_each {A B : Type} (xs : list A) (body : A -> result (list B))
    ds x :
  for_each xs body = Ok ds -> In x xs -> exists d, body x = Ok d.
Proof.
  revert ds. induction xs as [|y xs IH]; intros ds H Hin; [destruct Hin|].
  rewrite for_each_cons in H.
  apply bind_ok_inv in H as (d & Hd & H).
  apply bind_ok_inv in H as (ds' & Hds' & _).
  destruct Hin as [<-|Hin]; eauto.
Qed.

Lemma for_each_app {A B : Type} (xs ys : list A) (body : A -> result (list B)) :
  for_each (xs ++ ys) body =
  (a <- for_each xs body ;; b <- for_each ys body ;; Ok (a ++ b)).
Proof.
  induction xs as [|x xs IH].
  - cbn [app]. rewrite for_each_nil. cbn [bind].
    destruct (for_each ys body); reflexivity.
  - cbn [app]. rewrite !for_each_cons, IH.
    destruct (body x) as [d|]; cbn [bind]; [|reflexivity].
    destruct (for_each xs body) as [a|]; cbn [bind]; [|reflexivity].
    destruct (for_each ys body) as [b|]; cbn [bind]; [|reflexivity].
    now rewrite app_assoc.
Qed.

Lemma zip_longest_from_In_left (Lv Rv : list node) i :
  forall idx, nth_error Lv i = Some PyNone -> (List.length Rv <= i)%nat ->
  In ((idx + i)%nat, PyNone, PyNone) (zip_longest_from idx Lv Rv).
Proof.
  revert Rv i. induction Lv as [|l Lv IH]; intros Rv i idx Hn Hlen.
  - destruct i; discriminate.
  - destruct i as [|i]; cbn in Hn.
    + injection Hn as ->. destruct Rv as [|r Rv]; [|simpl in Hlen; lia].
      rewrite Nat.add_0_r. now left.
    + replace (idx + S i)%nat with (S idx + i)%nat by lia.
      destruct Rv as [|r Rv]; cbn [zip_longest_from]; right; apply IH; auto;
        simpl in *; lia.
Qed.

(** A null item of the left sequence at an index the right sequence
    does not reach: [_diff_yaml_lists] does not return.  The null item
    is taken for a missing one, and the position of the right item,
    which does not exist, is asked for. *)
Theorem null_item_past_right_end lc_l (L : list seq_item) lc_r
    (R : list seq_item) i p :
  nth_error L i = Some (p, PyNone) -> (List.length R <= i)%nat ->
  exists e,
    _diff_yaml_lists (CommentedSeq lc_l L) (CommentedSeq lc_r R) = Raise e.
Proof.
  intros Hn Hlen.
  destruct (_diff_yaml_lists _ _) as [ds|e] eqn:E; [exfalso | eauto].
  rewrite _diff_yaml_lists_unfold in E. unfold zip_longest in E.
  assert (In (0 + i, PyNone, PyNone)%nat
             (zip_longest_from 0 (seq_values L) (seq_values R))) as Hin.
  { apply zip_longest_from_In_left.
    - unfold seq_values. rewrite nth_error_map.
      change (@nth_error (Z * Z * node) L i) with (@nth_error seq_item L i).
      now rewrite Hn.
    - unfold seq_values. now rewrite length_map. }
  destruct (for_each_ok_each _ _ _ _ E Hin) as [d Hd].
  cbn in Hd.
  assert (nth_error R i = None) as Hr by now apply nth_error_None.
  change (@nth_error (Z * Z * node) R i) with (@nth_error seq_item R i) in Hd.
  rewrite Hr in Hd. destruct R; discriminate.
Qed.

Lemma zip_longest_from_app_right (Lv Rv Ev : list node) :
  forall idx, List.length Lv = List.length Rv ->
  zip_longest_from idx Lv (Rv ++ Ev) =
  zip_longest_from idx Lv Rv ++ fill_left (idx + List.length Lv) Ev.
Proof.
  revert Rv. induction Lv as [|l Lv IH]; intros [|r Rv] idx Hlen;
    try discriminate.
  - cbn. now rewrite Nat.add_0_r.
  - cbn [app zip_longest_from]. injection Hlen as Hlen.
    rewrite (IH Rv (S idx) Hlen). cbn [List.length].
    replace (S idx + List.length Lv)%nat with (idx + S (List.length Lv))%nat
      by lia.
    reflexivity.
Qed.

Lemma zip_longest_from_app_left (Lv Ev Rv : list node) :
  forall idx, List.length Lv = List.length Rv ->
  zip_longest_from idx (Lv ++ Ev) Rv =
  zip_longest_from idx Lv Rv ++ zip_longest_from (idx + List.length Lv) Ev [].
Proof.
  revert Rv. induction Lv as [|l Lv IH]; intros [|r Rv] idx Hlen;
    try discriminate.
  - cbn [app List.length]. rewrite Nat.add_0_r. reflexivity.
  - cbn [app zip_longest_from]. injection Hlen as Hlen.
    rewrite (IH Rv (S idx) Hlen). cbn [List.length].
    replace (S idx + List.length Lv)%nat with (idx + S (List.length Lv))%nat
      by lia.
    reflexivity.
Qed.

Lemma zip_longest_from_index (Lv Rv : list node) i a b :
  forall idx, List.length Lv = List.length Rv ->
  In (i, a, b) (zip_longest_from idx Lv Rv) ->
  (idx <= i < idx + List.length Rv)%nat.
Proof.
  revert Rv. induction Lv as [|l Lv IH]; intros [|r Rv] idx Hlen Hin;
    try discriminate; [destruct Hin|].
  injection Hlen as Hlen. cbn [zip_longest_from] in Hin.
  destruct Hin as [E|Hin].
  - injection E as <- _ _. simpl. lia.
  - apply (IH Rv (S idx) Hlen) in Hin. simpl. lia.
Qed.

Lemma lists_body_right_app recL recM (left : node) lc_r
    (R E : list (Z * Z * node)) i (a b : node) :
  (i < List.length R)%nat ->
  lists_body recL recM left (CommentedSeq lc_r (R ++ E)) i a b =
  lists_body recL recM left (CommentedSeq lc_r R) i a b.
Proof.
  intros Hi. unfold lists_body. cbn [lc_item node_lc].
  rewrite (nth_error_app1 R E Hi).
  destruct (nth_error R i) as [[p x]|] eqn:En; [reflexivity|].
  apply nth_error_None in En. lia.
Qed.

(** A right sequence that goes on past the end of the left one: the
    records are those of the two sequences cut to the same length,
    followed by one "<missing item>" record for each further item of the
    right sequence, in order, positioned at the left sequence and at the
    item. *)
Theorem right_sequence_longer lc_l (L : list seq_item) lc_r
    (R E : list seq_item) :
  List.length L = List.length R ->
  _diff_yaml_lists (CommentedSeq lc_l L) (CommentedSeq lc_r (R ++ E)) =
  (ds <- _diff_yaml_lists (CommentedSeq lc_l L) (CommentedSeq lc_r R) ;;
   Ok (ds ++ map (missing_item_left lc_l) E)).
Proof.
  intros Hlen. rewrite !_diff_yaml_lists_unfold. unfold zip_longest, seq_values.
  rewrite map_app, zip_longest_from_app_right by now rewrite !length_map.
  rewrite for_each_app.
  fold (seq_values E).
  rewrite (fill_left_records _ _ lc_l L lc_r (R ++ E) E).
  2:{ rewrite length_map. cbn [Nat.add]. unfold seq_item in *. rewrite Hlen.
      rewrite skipn_app, skipn_all, Nat.sub_diag. reflexivity. }
  rewrite (for_each_ext _ _
             (fun '(idx, item_l, item_r) =>
                lists_body _diff_yaml_lists _diff_yaml_maps
                  (CommentedSeq lc_l L) (CommentedSeq lc_r R)
                  idx item_l item_r)).
  2:{ intros [[i a] b] Hin.
      apply zip_longest_from_index in Hin; [|now rewrite !length_map].
      rewrite length_map in Hin. apply lists_body_right_app.
      unfold seq_item in *. lia. }
  destruct (for_each _ _); reflexivity.
Qed.

(** ** Streams of different lengths *)

(** The records of [diff_yaml_streams] for the documents of the left
    stream that the right one does not reach, numbered from [idx]. *)
Fixpoint documents_missing_right (idx : nat) (docs : list node) : list Diff :=
  match docs with
  | [] => []
  | d :: rest =>
      mkDiff (yaml_document idx) "<no document>" (doc_context d) None ::
      documents_missing_right (S idx) rest
  end.

Lemma streams_loop_left_rest (E : list node) :
  Forall (fun d => _node_type d = MAP \/ _node_type d = LIST) E ->
  forall idx,
  for_each (zip_longest_from idx E []) streams_body =
  Ok (documents_missing_right idx E).
Proof.
  induction 1 as [|d E Hd _ IH]; intros idx; [reflexivity|].
  cbn [zip_longest_from documents_missing_right]. rewrite for_each_cons, IH.
  unfold doc_context.
  destruct d; destruct Hd as [Hd|Hd]; try discriminate; reflexivity.
Qed.

(** A left stream that goes on past the end of the right one with
    mapping or sequence documents: the records are those of the two
    streams cut to the same length, followed by one
    "<YAML document #N>" / "<no document>" record for each further
    document of the left stream, numbered by its place in the stream and
    positioned at its start. *)
Theorem left_stream_longer name_l name_r (A E B : list node) :
  List.length A = List.length B ->
  Forall (fun d => _node_type d = MAP \/ _node_type d = LIST) E ->
  diff_yaml_streams (mkStream name_l (Loaded (A ++ E)))
                    (mkStream name_r (Loaded B)) false =
  (ds <- diff_yaml_streams (mkStream name_l (Loaded A))
                           (mkStream name_r (Loaded B)) false ;;
   Ok (ds ++ documents_missing_right (List.length B) E)).
Proof.
  intros Hlen HE. unfold diff_yaml_streams, try_load. cbn [load_all bind].
  unfold zip_longest. rewrite zip_longest_from_app_left by exact Hlen.
  rewrite for_each_app, (streams_loop_left_rest E HE), Hlen.
  cbn [Nat.add]. destruct (for_each _ _); reflexivity.
Qed.

(** ** Positions are 1-based *)

Definition pos_nonneg (p : Z * Z) : bool :=
  (0 <=? fst p)%Z && (0 <=? snd p)%Z.

Definition lc_nonneg (lc : LineCol) : bool :=
  (0 <=? lc_line lc)%Z && (0 <=? lc_col lc)%Z.

(** Every position the parser recorded in [x] is a 0-based line and
    column. *)
Fixpoint positions_nonneg (x : node) : bool :=
  match x with
  | PyNone | Scalar _ => true
  | CommentedSeq lc items =>
      lc_nonneg lc
      && forallb (fun it : seq_item =>
                    pos_nonneg (fst it) && positions_nonneg (snd it)) items
  | CommentedMap lc items =>
      lc_nonneg lc
      && forallb (fun it : map_item =>
                    pos_nonneg (snd (fst (fst it))) && pos_nonneg (snd (fst it))
                    && positions_nonneg (snd it)) items
  end.

Definition context_one_based (c : option DiffContext) : Prop :=
  match c with
  | Some c => (1 <= line c)%Z /\ (1 <= col c)%Z
  | None => True
  end.

(** Both positions of a record, where present, are 1-based. *)
Definition one_based (d : Diff) : Prop :=
  context_one_based (left_context d) /\ context_one_based (right_context d).

Lemma from_lc_tuple_one_based p :
  pos_nonneg p = true -> context_one_based (Some (from_lc (LcTuple p))).
Proof.
  destruct p as [l c]. unfold pos_nonneg. cbn.
  rewrite andb_true_iff, !Z.leb_le. lia.
Qed.

Lemma from_lc_object_one_based lc :
  lc_nonneg lc = true -> context_one_based (Some (from_lc (LcObject lc))).
Proof.
  unfold lc_nonneg. cbn. rewrite andb_true_iff, !Z.leb_le. lia.
Qed.

Lemma for_each_Forall {A B : Type} (Q : B -> Prop) (xs : list A)
    (body : A -> result (list B)) ds :
  (forall x d, In x xs -> body x = Ok d -> Forall Q d) ->
  for_each xs body = Ok ds -> Forall Q ds.
Proof.
  revert ds. induction xs as [|x xs IH]; intros ds HQ H.
  - rewrite for_each_nil in H. injection H as <-. constructor.
  - rewrite for_each_cons in H.
    apply bind_ok_inv in H as (d & Hd & H).
    apply bind_ok_inv in H as (ds' & Hds' & H). injection H as <-.
    apply Forall_app. split; [apply (HQ x); auto; now left|].
    apply IH; auto. intros y e Hy. apply HQ. now right.
Qed.

Lemma fill_left_In (Rv : list node) i a b :
  forall idx, In (i, a, b) (fill_left idx Rv) -> a = PyNone /\ In b Rv.
Proof.
  induction Rv as [|r Rv IH]; intros idx Hin; [destruct Hin|].
  destruct Hin as [E|Hin].
  - injection E as _ <- <-. split; [reflexivity | now left].
  - apply IH in Hin as [? ?]. split; [assumption | now right].
Qed.

Lemma zip_longest_from_In (Lv Rv : list node) i a b :
  forall idx, In (i, a, b) (zip_longest_from idx Lv Rv) ->
  (a = PyNone \/ In a Lv) /\ (b = PyNone \/ In b Rv).
Proof.
  revert Rv. induction Lv as [|l Lv IH]; intros Rv idx Hin.
  - apply fill_left_In in Hin as [? ?]. auto.
  - destruct Rv as [|r Rv]; cbn [zip_longest_from] in Hin;
      destruct Hin as [E|Hin].
    + injection E as _ <- <-. split; [right; now left | now left].
    + apply IH in Hin as [[?|?] [?|[]]]; split; auto; right; now right.
    + injection E as _ <- <-. split; right; now left.
    + apply IH in Hin as [[?|?] [?|?]]; split; auto; right; now right.
Qed.

Ltac records_one_based :=
  repeat first [apply Forall_nil | apply Forall_cons];
  try (split; first [assumption | exact I]).

Lemma lists_body_one_based recL recM lc_l (items_l : list (Z * Z * node))
    lc_r (items_r : list (Z * Z * node)) idx (a b : node) d :
  lc_nonneg lc_l = true -> lc_nonneg lc_r = true ->
  (forall p x, In (p, x) items_l -> pos_nonneg p = true) ->
  (forall p x, In (p, x) items_r -> pos_nonneg p = true) ->
  (forall ds, recL a b = Ok ds -> Forall one_based ds) ->
  (forall ds, recM a b = Ok ds -> Forall one_based ds) ->
  lists_body recL recM (CommentedSeq lc_l items_l) (CommentedSeq lc_r items_r)
    idx a b = Ok d ->
  Forall one_based d.
Proof.
  intros Hl Hr Pl Pr HL HM. unfold lists_body. cbn [node_lc bind].
  apply from_lc_object_one_based in Hl, Hr.
  destruct (lc_item_seq_cases lc_l items_l idx)
    as [(pl & xl & El & ->)|(_ & el & -> & _)];
    [apply nth_error_In, Pl, from_lc_tuple_one_based in El|];
    (destruct (lc_item_seq_cases lc_r items_r idx)
       as [(pr & xr & Er & ->)|(_ & er & -> & _)];
     [apply nth_error_In, Pr, from_lc_tuple_one_based in Er|]);
    destruct a, b; cbn; auto; try discriminate;
    try (destruct (py_ne _ _); cbn; try discriminate);
    intros H; injection H as <-; records_one_based.
Qed.

Lemma forallb_andb_In {A : Type} (f g : A -> bool) (l : list A) x :
  forallb (fun y => f y && g y) l = true -> In x l ->
  f x = true /\ g x = true.
Proof.
  intros H Hin. apply (forallb_In _ _ _ H) in Hin.
  now apply andb_true_iff in Hin.
Qed.

Lemma recursion_one_based (a : node) :
  positions_nonneg a = true ->
  forall b ds, positions_nonneg b = true ->
    (_diff_yaml_lists a b = Ok ds -> Forall one_based ds) /\
    (_diff_yaml_maps a b = Ok ds -> Forall one_based ds).
Proof.
  induction a as [| s | lc L IH | lc L IH] using node_induction;
    intros Ha b ds Hb; (split; intros H);
    try (destruct b; discriminate);
    destruct b as [| t | lc' R | lc' R]; try discriminate;
    cbn [positions_nonneg] in Ha, Hb;
    apply andb_true_iff in Ha as [Ha1 Ha2];
    apply andb_true_iff in Hb as [Hb1 Hb2];
    rewrite Forall_forall in IH.
  - rewrite _diff_yaml_lists_unfold in H. unfold zip_longest in H.
    revert H. apply for_each_Forall. intros [[i a] b] d Hin Hd.
    apply zip_longest_from_In in Hin as [Hina Hinb].
    assert (positions_nonneg b = true) as Pb.
    { destruct Hinb as [->|Hinb]; [reflexivity|].
      apply in_map_iff in Hinb as (it & <- & Hit).
      apply (forallb_andb_In _ _ _ _ Hb2 Hit). }
    revert Hd. apply lists_body_one_based; auto.
    + intros p x Hp. apply (forallb_andb_In _ _ _ _ Ha2 Hp).
    + intros p x Hp. apply (forallb_andb_In _ _ _ _ Hb2 Hp).
    + destruct Hina as [->|Hina]; [intros ? E; destruct b; discriminate E|].
      apply in_map_iff in Hina as (it & <- & Hit).
      intros ds' E.
      apply (proj1 (IH it Hit (proj2 (forallb_andb_In _ _ _ _ Ha2 Hit)) b ds' Pb));
        exact E.
    + destruct Hina as [->|Hina]; [intros ? E; destruct b; discriminate E|].
      apply in_map_iff in Hina as (it & <- & Hit).
      intros ds' E.
      apply (proj2 (IH it Hit (proj2 (forallb_andb_In _ _ _ _ Ha2 Hit)) b ds' Pb));
        exact E.
  - rewrite _diff_yaml_maps_unfold in H.
    apply bind_ok_inv in H as (d1 & H1 & H).
    apply bind_ok_inv in H as (d2 & H2 & H). injection H as <-.
    apply from_lc_object_one_based in Ha1 as La, Hb1 as Lb.
    apply Forall_app. split.
    + revert H1. apply for_each_Forall. intros [[[k kp] vp] v] d Hin.
      destruct (forallb_andb_In _ _ _ _ Ha2 Hin) as [Hp Pv]. cbn [fst snd] in Hp, Pv.
      apply andb_true_iff in Hp as [Pkp Pvp].
      apply from_lc_tuple_one_based in Pkp, Pvp.
      unfold maps_body. cbn [contains getitem lc_value node_lc].
      destruct (lookup k R) as [[[[k' kp'] vp'] v']|] eqn:El; cbn [negb bind].
      2:{ intros E. injection E as <-. records_one_based. }
      apply lookup_some in El as [Hin' _].
      destruct (forallb_andb_In _ _ _ _ Hb2 Hin') as [Hp' Pv'].
      cbn [fst snd] in Hp', Pv'.
      apply andb_true_iff in Hp' as [_ Pvp'].
      apply from_lc_tuple_one_based in Pvp'.
      pose proof (IH _ Hin Pv v') as IHv. cbn [snd] in IHv.
      destruct v, v'; cbn; try discriminate;
        try (destruct (py_ne _ _); cbn);
        try (intros E; injection E as <-; records_one_based);
        intros E;
        first [apply (proj1 (IHv d Pv')); exact E
              | apply (proj2 (IHv d Pv')); exact E].
    + revert H2. apply for_each_Forall. intros [[[k kp] vp] v] d Hin.
      destruct (forallb_andb_In _ _ _ _ Hb2 Hin) as [Hp _]. cbn [fst snd] in Hp.
      apply andb_true_iff in Hp as [Pkp _].
      apply from_lc_tuple_one_based in Pkp.
      unfold maps_right_body. cbn [contains node_lc].
      destruct (lookup k L); cbn; intros E; injection E as <-;
        records_one_based.
Qed.

(** When every position the parser recorded in the documents compared
    is 0-based (not negative), every position of every record that
    [diff_yaml_streams] returns is 1-based: a line and a column of at
    least 1. *)
Theorem diff_yaml_streams_positions_one_based (l r : stream)
    skip_header_doc ds :
  forallb positions_nonneg (compared skip_header_doc l) = true ->
  forallb positions_nonneg (compared skip_header_doc r) = true ->
  diff_yaml_streams l r skip_header_doc = Ok ds ->
  Forall one_based ds.
Proof.
  intros Pl Pr H. unfold diff_yaml_streams in H.
  apply bind_ok_inv in H as (cl & Hl & H).
  apply bind_ok_inv in H as (cr & Hr & H).
  apply try_load_ok in Hl, Hr. subst cl cr.
  revert H. apply for_each_Forall. intros [[i a] b] d Hin.
  apply zip_longest_from_In in Hin as [Hina Hinb].
  assert (positions_nonneg a = true) as Pa
    by (destruct Hina as [->|Hina]; [reflexivity | exact (forallb_In _ _ _ Pl Hina)]).
  assert (positions_nonneg b = true) as Pb
    by (destruct Hinb as [->|Hinb]; [reflexivity | exact (forallb_In _ _ _ Pr Hinb)]).
  unfold streams_body.
  destruct a as [| s | lc L | lc L]; cbn [is_None].
  - destruct b; cbn; try discriminate; intros E; injection E as <-;
      cbn in Pb; apply andb_true_iff in Pb as [Pb _];
      apply from_lc_object_one_based in Pb; records_one_based.
  - destruct b; cbn; discriminate.
  - destruct b as [| t | lc' R | lc' R]; cbn [is_None node_lc bind].
    + intros E; injection E as <-.
      cbn in Pa; apply andb_true_iff in Pa as [Pa _];
      apply from_lc_object_one_based in Pa; records_one_based.
    + cbn. discriminate.
    + unfold diff_yaml_docs. cbn [_node_type NodeType_eqb].
      intros E. apply bind_ok_inv in E as (v & Hv & E).
      apply bind_ok_inv in Hv as (ds' & Hds' & Hv). injection Hv as <-.
      injection E as <-.
      apply (proj1 (recursion_one_based _ Pa _ _ Pb)); exact Hds'.
    + cbn. discriminate.
  - destruct b as [| t | lc' R | lc' R]; cbn [is_None node_lc bind].
    + intros E; injection E as <-.
      cbn in Pa; apply andb_true_iff in Pa as [Pa _];
      apply from_lc_object_one_based in Pa; records_one_based.
    + cbn. discriminate.
    + cbn. discriminate.
    + unfold diff_yaml_docs. cbn [_node_type NodeType_eqb].
      intros E. apply bind_ok_inv in E as (v & Hv & E).
      apply bind_ok_inv in Hv as (ds' & Hds' & Hv). injection Hv as <-.
      injection E as <-.
      apply (proj2 (recursion_one_based _ Pa _ _ Pb)); exact Hds'.
Qed.

End Properties.

(** * The differ on concrete documents *)

Module Runs.

Import Ints.
Local Open Scope Z_scope.

Lemma str_eqb_sym (a b : string) : key_eqb a b = key_eqb b a.
Proof. apply String.eqb_sym. Qed.

Lemma str_eqb_trans (a b c : string) :
  key_eqb a b = true -> key_eqb b c = true -> key_eqb a c = true.
Proof. cbn. rewrite !String.eqb_eq. congruence. Qed.

Lemma str_eqb_refl (k : string) : key_eqb k k = true.
Proof. apply String.eqb_refl. Qed.

Lemma int_ne_sym (s t : Z) : py_ne s t = py_ne t s.
Proof. cbn. now rewrite Z.eqb_sym. Qed.

(** ** Streams *)




(** C5: a stream of one document against a stream of two, and the same
    two streams exchanged, fail with the same error, which tells the
    deficient side of neither. *)
Lemma header_skip_error_names_no_side :
  diff_yaml_streams (text [map_a1]) (text [map_a1; map_a2]) true =
    Raise (DiffError "Cannot skip header: no header YAML document found") /\
  diff_yaml_streams (text [map_a1; map_a2]) (text [map_a1]) true =
    Raise (DiffError "Cannot skip header: no header YAML document found").
Proof. split; reflexivity. Qed.

Lemma header_skip_failure_witness :
  load_all (text [map_a1; map_a2]) = Loaded [map_a1; map_a2] /\
  diff_yaml_streams (text [map_a1; map_a2]) (text [map_a1]) true =
  Raise (DiffError "Cannot skip header: no header YAML document found").
Proof.
  split; [reflexivity|].
  apply (header_skip_failure (text [map_a1; map_a2]) (text [map_a1])
           [map_a1; map_a2]); [reflexivity|].
  right. exists [map_a1]. split; [reflexivity | cbn; lia].
Defined.

(** C8: with the header skipped, a left stream of one document and a
    malformed right stream fail with the header-skip error, which
    carries no line and no column. *)
Lemma malformed_right_hidden_by_header_skip :
  load_all broken =
    MarkedYAMLError 2 4 "while parsing a block mapping"
      "expected <block end>, but found '-'" /\
  diff_yaml_streams (text [map_a1]) broken true =
  Raise (DiffError "Cannot skip header: no header YAML document found").
Proof. split; reflexivity. Qed.

Lemma malformed_input_aborts_witness :
  diff_yaml_streams (text [map_a1]) broken false =
  Raise (DiffError
           ("Error parsing YAML stream " ++ dquote ++ "right" ++ dquote ++ ":" ++
            newline ++ "3:5 while parsing a block mapping: " ++
            "expected <block end>, but found '-'")).
Proof.
  apply (malformed_input_aborts (text [map_a1]) broken broken false "right"
           2 4 "while parsing a block mapping"
           "expected <block end>, but found '-'").
  - right. split; [reflexivity|]. split; [reflexivity|].
    exists [map_a1]. reflexivity.
  - reflexivity.
Defined.

Lemma diff_yaml_streams_detection_symmetric_witness :
  [mkDiff "1" "2" (Some (mkDiffContext 1 4)) (Some (mkDiffContext 1 4))] <> [] <->
  [mkDiff "2" "1" (Some (mkDiffContext 1 4)) (Some (mkDiffContext 1 4))] <> [].
Proof.
  apply (diff_yaml_streams_detection_symmetric
           str_eqb_sym str_eqb_trans int_ne_sym
           (text [map_a1]) (text [map_a2]) false); reflexivity.
Defined.

(** C10: two streams, each one explicit null document: the left
    document is [None], so the differ asks the right one for its [lc],
    and the call raises [AttributeError] instead of appending the
    "<no document>" record. *)
Theorem null_document_against_null_document :
  diff_yaml_streams (text [PyNone]) (text [PyNone]) false =
  Raise AttributeError.
Proof. reflexivity. Qed.

(** ** Documents *)

(** C2: the bare scalar document [1] compared with itself does not give
    the empty collection. *)
Lemma scalar_document_against_itself :
  diff_yaml_docs (Scalar 1 : node Z string) (Scalar 1) =
  Raise (DiffError "Unknown YAML root node type").
Proof. reflexivity. Qed.

Lemma diff_yaml_docs_identity_witness :
  well_formed map_ab = true /\ no_null_items map_ab = true /\
  self_equal map_ab = true /\
  diff_yaml_docs map_ab map_ab = Ok (PyList []).
Proof.
  repeat (split; [reflexivity|]).
  apply (diff_yaml_docs_identity str_eqb_sym str_eqb_trans str_eqb_refl map_ab);
    reflexivity.
Defined.

(** C3: two absent documents make [diff_yaml_docs] fail. *)
Lemma absent_documents_raise :
  diff_yaml_docs (PyNone : node Z string) PyNone =
  Raise (DiffError "Unknown YAML root node type").
Proof. reflexivity. Qed.

Lemma diff_yaml_docs_scalar_or_absent_raises_witness :
  _node_type (Scalar 1 : node Z string) = _node_type (Scalar 2 : node Z string) /\
  diff_yaml_docs (Scalar 1 : node Z string) (Scalar 2) =
  Raise (DiffError "Unknown YAML root node type").
Proof.
  split; [reflexivity|].
  apply (diff_yaml_docs_scalar_or_absent_raises (Scalar 1) (Scalar 2));
    [reflexivity | left; reflexivity].
Defined.

(** C4: a mapping document against a sequence document.
    [diff_yaml_docs] returns the one record bare, not in a list, and
    [diff_yaml_streams], which extends its list with the value returned,
    raises [TypeError]. *)
Theorem top_level_type_mismatch :
  diff_yaml_docs map_a1 seq_one =
    Ok (PyDiff (mkDiff "<top-level node of type map>"
                       "<top-level node of type sequence>"
                       (Some (mkDiffContext 1 1)) (Some (mkDiffContext 1 1)))) /\
  diff_yaml_streams (text [map_a1]) (text [seq_one]) false = Raise TypeError.
Proof. split; reflexivity. Qed.

(** ** Sequences and mappings *)

(** C7: the sequence [[None]] against itself.  Both items are present
    and both classify as absent, and [_diff_yaml_lists] appends a
    "<missing item>" record. *)
Theorem null_items_reported_missing :
  _diff_yaml_lists seq_null seq_null =
  Ok [mkDiff "<missing item>" "None"
        (Some (mkDiffContext 1 1)) (Some (mkDiffContext 1 3))].
Proof. reflexivity. Qed.

Lemma missing_key_coverage_witness :
  exists ds,
    _diff_yaml_maps map_ab map_ac = Ok ds /\
    ds = [mkDiff "b" "<missing key>"
            (Some (mkDiffContext 2 1)) (Some (mkDiffContext 1 1));
          mkDiff "<missing key>" "c"
            (Some (mkDiffContext 1 1)) (Some (mkDiffContext 2 1))] /\
    List.length (filter is_missing_key ds) = 2%nat.
Proof.
  refine (missing_key_coverage (at_ 0 0)
            [("a", (0, 0), (0, 3), Scalar 1); ("b", (1, 0), (1, 3), Scalar 2)]
            (at_ 0 0)
            [("a", (0, 0), (0, 3), Scalar 1); ("c", (1, 0), (1, 3), Scalar 3)]
            (fun it Hin H => _)).
  destruct Hin as [<- | [<- | []]].
  - reflexivity.
  - exfalso. apply H. reflexivity.
Defined.

End Runs.

(** * Presentation: [pretty_print_diffs] and the helpers of [main] *)

(** ** Strings as the interpreter handles them *)

Local Open Scope string_scope.

(** [len(s)] *)
Definition len (s : string) : Z := Z.of_nat (String.length s).

(** [' ' * n]: nothing for a negative [n]. *)
Fixpoint spaces_nat (n : nat) : string :=
  match n with
  | O => EmptyString
  | S n' => String " " (spaces_nat n')
  end.

Definition spaces (n : Z) : string := spaces_nat (Z.to_nat n).

Fixpoint take (n : nat) (s : string) : string :=
  match n, s with
  | S n', String c s' => String c (take n' s')
  | _, _ => EmptyString
  end.

Fixpoint drop (n : nat) (s : string) : string :=
  match n, s with
  | S n', String _ s' => drop n' s'
  | _, _ => s
  end.

(** A slice bound as the interpreter reads it: a negative one counts
    from the end, and both are clipped to the string. *)
Definition slice_bound (s : string) (i : Z) : nat :=
  Z.to_nat (if (i <? 0)%Z then Z.max 0 (len s + i) else i).

(** [s[:stop]] and [s[start:]] *)
Definition slice_to (s : string) (stop : Z) : string :=
  take (slice_bound s stop) s.

Definition slice_from (s : string) (start : Z) : string :=
  drop (slice_bound s start) s.

(** [xs[i]]: a negative index counts from the end; out of range is
    [IndexError], here [None]. *)
Definition py_getitem {A : Type} (xs : list A) (i : Z) : option A :=
  let n := Z.of_nat (List.length xs) in
  if (0 <=? i)%Z then nth_error xs (Z.to_nat i)
  else if (0 <=? n + i)%Z then nth_error xs (Z.to_nat (n + i))
  else None.

(** [range(a, b)] *)
Definition py_range (a b : Z) : list Z :=
  map (fun k => (a + Z.of_nat k)%Z) (seq 0 (Z.to_nat (b - a))).

(** [f'{z: 4d}']: a space for the sign of a number that is not
    negative, right-aligned in 4 columns. *)
Definition format_space_4d (z : Z) : string :=
  let body := if (z <? 0)%Z then str_int z else " " ++ str_int z in
  spaces (4 - len body) ++ body.

(** [f'{z:<3d}']: left-aligned in 3 columns. *)
Definition format_left_3d (z : Z) : string :=
  let body := str_int z in
  body ++ spaces (3 - len body).

(** ** The helpers of [pretty_print_diffs] *)

Definition shorten_and_pad (s : string) (width : Z) (placeholder : string)
  : result string :=
  if negb (len placeholder <? width)%Z then Raise AssertionError
  else if (width <? len s)%Z then
    Ok (slice_to s (width - len placeholder) ++ placeholder)
  else Ok (s ++ spaces (width - len s)).

Definition side_to_str (col_width : Z) (prefix side : string)
    (side_context : option DiffContext) : result string :=
  let context :=
    match side_context with
    | Some c => format_space_4d (line c) ++ ":" ++ format_left_3d (col c)
    | None => spaces 8
    end in
  side_str <- shorten_and_pad side (col_width - 10) "..." ;;
  Ok (prefix ++ context ++ " " ++ side_str).

Definition diff_to_str (col_width : Z) (separator : string) (d : Diff)
  : result string :=
  ls <- side_to_str col_width "L" (left d) (left_context d) ;;
  rs <- side_to_str col_width "R" (right d) (right_context d) ;;
  Ok (ls ++ separator ++ rs).

(** The [try] catches [IndexError] only: an assertion of
    [shorten_and_pad] that fails leaves through. *)
Definition get_context_line (col_width : Z) (lines : list string)
    (diff_context : option DiffContext) (offset : Z) : result string :=
  match diff_context with
  | Some c =>
      match py_getitem lines (line c - 1 + offset) with
      | Some text => shorten_and_pad text col_width EmptyString
      | None => Ok (spaces col_width)
      end
  | None => Ok (spaces col_width)
  end.

(** ** [pretty_print_diffs] *)

(** What a call of [print] writes: [print(s, end='')] or [print(s)]. *)
Inductive written : Type :=
| Text (s : string)
| Line (s : string).

(** The colour codes of [Fore]: colorama's, or empty ones. *)
Record Fore_codes : Type := mkFore { BLUE : string; RESET : string; RED : string }.

(** A run of printing code: what it wrote, and the exception that ended
    it, if one did. *)
Definition run : Type := (list written * option exn)%type.

(** One run after another; an exception ends the sequence. *)
Definition and_then (a : run) (b : run) : run :=
  match snd a with
  | Some e => a
  | None => ((fst a ++ fst b)%list, snd b)
  end.

Fixpoint run_each {A : Type} (xs : list A) (body : A -> run) : run :=
  match xs with
  | [] => ([], None)
  | x :: xs' => and_then (body x) (run_each xs' body)
  end.

(** [print(x)] where evaluating [x] may raise. *)
Definition print_line (x : result string) : run :=
  match x with
  | Ok s => ([Line s], None)
  | Raise e => ([], Some e)
  end.

Section Printing.

Variable Fore : Fore_codes.

(** [str.splitlines] *)
Variable splitlines : string -> list string.

(** The body of the inner loop, for one [offset]. *)
Definition print_context_line (col_width : Z) (separator : string)
    (lines_l lines_r : list string) (d : Diff) (offset : Z) : run :=
  and_then
    ([Text (if (offset =? 0)%Z then RED Fore else RESET Fore)], None)
    (print_line
       (l <- get_context_line col_width lines_l (left_context d) offset ;;
        r <- get_context_line col_width lines_r (right_context d) offset ;;
        Ok (l ++ spaces (len separator) ++ r))).

(** The body of the outer loop, for one record; [context] is tested for
    truth, so a negative one counts as set. *)
Definition print_diff (col_width : Z) (separator : string) (context : Z)
    (lines_l lines_r : list string) (d : Diff) : run :=
  and_then
    ([Text (if (context =? 0)%Z then RESET Fore else BLUE Fore)], None)
    (and_then
       (print_line (diff_to_str col_width separator d))
       (if (context =? 0)%Z then ([], None)
        else
          and_then
            (run_each (py_range (- context) (context + 1))
               (print_context_line col_width separator lines_l lines_r d))
            ([Line EmptyString], None))).

(** [lines_l] and [lines_r] are bound only when [context > 0]; they are
    read only then. *)
Definition pretty_print_diffs (diffs : list Diff) (col_width : Z)
    (separator : string) (context : Z) (left right : option string) : run :=
  let context :=
    if (0 <? context)%Z
       && (match left with None => true | Some _ => false end
           || match right with None => true | Some _ => false end)
    then 0%Z else context in
  let lines_l := match left with Some t => splitlines t | None => [] end in
  let lines_r := match right with Some t => splitlines t | None => [] end in
  run_each diffs (print_diff col_width separator context lines_l lines_r).

End Printing.

(** ** The layout computed by [main] *)

Definition fit_path (s : string) (width : Z) : string :=
  if (len s <=? width)%Z then s ++ spaces (width - len s)
  else "..." ++ slice_from s (- width + 3).

Definition SEPARATOR : string := "<->".

(** [col_width]: from the terminal's number of columns, or 40 when
    there is no terminal ([OSError]). *)
Definition main_col_width (terminal_columns : option Z) : Z :=
  match terminal_columns with
  | Some columns => Z.max 20 (columns / 2 - len SEPARATOR / 2 - 1)
  | None => 40
  end.

(** The head line of [main], between [Style.BRIGHT] and
    [Style.RESET_ALL]. *)
Definition head_line (col_width : Z) (left_name right_name : string) : string :=
  "L:" ++ fit_path left_name (col_width - 2) ++ spaces (len SEPARATOR) ++
  "R:" ++ fit_path right_name (col_width - 2).

(** ** Widths *)

Lemma length_append (a b : string) :
  String.length (a ++ b) = (String.length a + String.length b)%nat.
Proof. induction a as [|c a IH]; cbn; [reflexivity | now rewrite IH]. Qed.

Lemma len_append (a b : string) : len (a ++ b) = (len a + len b)%Z.
Proof. unfold len. rewrite length_append. lia. Qed.

Lemma len_nonneg (s : string) : (0 <= len s)%Z.
Proof. unfold len. lia. Qed.

Lemma length_spaces_nat (n : nat) : String.length (spaces_nat n) = n.
Proof. induction n; cbn; auto. Qed.

Lemma len_spaces (n : Z) : len (spaces n) = Z.max 0 n.
Proof. unfold len, spaces. rewrite length_spaces_nat. lia. Qed.

Lemma length_take (n : nat) (s : string) :
  String.length (take n s) = Nat.min n (String.length s).
Proof.
  revert s; induction n as [|n IH]; intros [|c s]; cbn; auto.
Qed.

Lemma length_drop (n : nat) (s : string) :
  String.length (drop n s) = (String.length s - n)%nat.
Proof.
  revert s; induction n as [|n IH]; intros [|c s]; cbn; auto.
Qed.

Lemma shorten_and_pad_len (s : string) (width : Z) (placeholder : string) :
  (len placeholder < width)%Z ->
  exists r, shorten_and_pad s width placeholder = Ok r /\ len r = width.
Proof.
  intros H. unfold shorten_and_pad.
  apply Z.ltb_lt in H as Hb. rewrite Hb. cbn [negb].
  destruct (width <? len s)%Z eqn:E; eexists; (split; [reflexivity|]).
  - apply Z.ltb_lt in E. rewrite len_append. unfold slice_to, slice_bound.
    pose proof (len_nonneg placeholder).
    assert ((width - len placeholder <? 0)%Z = false) as -> by (apply Z.ltb_ge; lia).
    unfold len in *. rewrite length_take. lia.
  - apply Z.ltb_ge in E. rewrite len_append, len_spaces. lia.
Qed.

(** Whenever its assertion holds, [shorten_and_pad] returns a string of
    exactly [width] characters, whatever the length of [s]. *)
Theorem shorten_and_pad_width (s : string) (width : Z) (placeholder : string) :
  (len placeholder < width)%Z ->
  exists r, shorten_and_pad s width placeholder = Ok r /\ len r = width.
Proof. apply shorten_and_pad_len. Qed.

(** The assertion of [shorten_and_pad] fails when [width] leaves no
    room beside the placeholder. *)
Lemma shorten_and_pad_assertion (s : string) (width : Z) (placeholder : string) :
  (width <= len placeholder)%Z ->
  shorten_and_pad s width placeholder = Raise AssertionError.
Proof.
  intros H. unfold shorten_and_pad.
  apply Z.ltb_ge in H. now rewrite H.
Qed.

Lemma str_int_small_nat (n : nat) :
  (n < 1000)%nat ->
  (1 <=? String.length (str_int (Z.of_nat n)))%nat
  && (String.length (str_int (Z.of_nat n)) <=? 3)%nat = true.
Proof.
  intros H.
  assert (forallb (fun n => (1 <=? String.length (str_int (Z.of_nat n)))%nat
                            && (String.length (str_int (Z.of_nat n)) <=? 3)%nat)
            (seq 0 1000) = true) as Hall by (vm_compute; reflexivity).
  rewrite forallb_forall in Hall. apply Hall. apply in_seq. lia.
Qed.

Lemma len_str_int_small (z : Z) :
  (0 <= z < 1000)%Z -> (1 <= len (str_int z) <= 3)%Z.
Proof.
  intros H. assert (Z.to_nat z < 1000)%nat as Hn by lia.
  apply str_int_small_nat in Hn as S.
  rewrite Z2Nat.id in S by lia. unfold len.
  apply andb_true_iff in S as [S1 S2].
  apply Nat.leb_le in S1, S2. lia.
Qed.

(** A position that fits the columns its format reserves: line and
    column from 0 to 999. *)
Definition context_fits (c : option DiffContext) : Prop :=
  match c with
  | Some c => (0 <= line c < 1000)%Z /\ (0 <= col c < 1000)%Z
  | None => True
  end.

Lemma side_to_str_width (col_width : Z) (prefix side : string)
    (side_context : option DiffContext) :
  (13 < col_width)%Z -> context_fits side_context ->
  exists r, side_to_str col_width prefix side side_context = Ok r /\
            len r = (len prefix + col_width - 1)%Z.
Proof.
  intros Hw Hc. unfold side_to_str.
  destruct (shorten_and_pad_len side (col_width - 10) "...") as (r & -> & Hr);
    [change (len "...") with 3%Z; lia|].
  cbn [bind]. eexists. split; [reflexivity|].
  rewrite !len_append, Hr. change (len " ") with 1%Z.
  destruct side_context as [c|]; cbn [context_fits] in Hc.
  - destruct Hc as [Hl Hcol].
    apply len_str_int_small in Hl as Ll, Hcol as Lc.
    unfold format_space_4d, format_left_3d. cbv zeta.
    assert ((line c <? 0)%Z = false) as -> by (apply Z.ltb_ge; lia).
    rewrite !len_append, !len_spaces, ?len_append.
    change (len " ") with 1%Z. change (len ":") with 1%Z. lia.
  - rewrite len_spaces. lia.
Qed.

(** With more than 13 columns and positions that fit, the line of a
    record is two columns of [col_width] characters around the
    separator, whatever the length of the two descriptions. *)
Theorem diff_to_str_width (col_width : Z) (separator : string) (d : Diff) :
  (13 < col_width)%Z ->
  context_fits (left_context d) -> context_fits (right_context d) ->
  exists r, diff_to_str col_width separator d = Ok r /\
            len r = (2 * col_width + len separator)%Z.
Proof.
  intros Hw Hl Hr. unfold diff_to_str.
  destruct (side_to_str_width col_width "L" (left d) _ Hw Hl) as (ls & -> & Ll).
  destruct (side_to_str_width col_width "R" (right d) _ Hw Hr) as (rs & -> & Lr).
  cbn [bind]. eexists. split; [reflexivity|].
  rewrite !len_append, Ll, Lr. change (len "L") with 1%Z.
  change (len "R") with 1%Z. lia.
Qed.

Lemma get_context_line_len (col_width : Z) (lines : list string)
    (diff_context : option DiffContext) (offset : Z) :
  (0 < col_width)%Z ->
  exists r, get_context_line col_width lines diff_context offset = Ok r /\
            len r = col_width.
Proof.
  intros Hw. unfold get_context_line.
  assert (exists r, Ok (spaces col_width) = Ok r /\ len r = col_width) as Hs
    by (eexists; split; [reflexivity | rewrite len_spaces; lia]).
  destruct diff_context as [c|]; [|exact Hs].
  destruct (py_getitem lines (line c - 1 + offset)) as [text|]; [|exact Hs].
  now apply shorten_and_pad_len.
Qed.

(** With at least one column, a context line is exactly [col_width]
    characters, whether the record has a position or not and whether
    the line exists or not. *)
Theorem get_context_line_width (col_width : Z) (lines : list string)
    (diff_context : option DiffContext) (offset : Z) :
  (0 < col_width)%Z ->
  exists r, get_context_line col_width lines diff_context offset = Ok r /\
            len r = col_width.
Proof. apply get_context_line_len. Qed.

Lemma nth_error_last {A : Type} (xs : list A) (x d : A) :
  nth_error (x :: xs) (List.length xs) = Some (last (x :: xs) d).
Proof.
  revert x. induction xs as [|y xs IH]; intros x; [reflexivity|].
  cbn [List.length nth_error]. rewrite IH. reflexivity.
Qed.

(** The line before line 1: the index is -1, which the interpreter
    reads from the end, so the context shown above a record on the first
    line of a file is the file's last line. *)
Theorem get_context_line_before_first (col_width : Z) (first : string)
    (rest : list string) (column : Z) :
  get_context_line col_width (first :: rest)
    (Some (mkDiffContext 1 column)) (-1) =
  shorten_and_pad (last (first :: rest) EmptyString) col_width EmptyString.
Proof.
  unfold get_context_line, py_getitem. cbn [line].
  change (1 - 1 + -1)%Z with (-1)%Z. cbn [Z.leb Z.compare].
  assert ((0 <=? Z.of_nat (List.length (first :: rest)) + -1)%Z = true) as ->
    by (apply Z.leb_le; cbn [List.length]; lia).
  replace (Z.to_nat (Z.of_nat (List.length (first :: rest)) + -1))
    with (List.length rest) by (cbn [List.length]; lia).
  now rewrite (nth_error_last rest first EmptyString).
Qed.

Lemma fit_path_len (s : string) (width : Z) :
  (3 < width)%Z -> len (fit_path s width) = width.
Proof.
  intros H. unfold fit_path.
  destruct (len s <=? width)%Z eqn:E.
  - apply Z.leb_le in E. rewrite len_append, len_spaces. lia.
  - apply Z.leb_gt in E. rewrite len_append. change (len "...") with 3%Z.
    unfold slice_from, slice_bound.
    assert ((- width + 3 <? 0)%Z = true) as -> by (apply Z.ltb_lt; lia).
    unfold len in *. rewrite length_drop. lia.
Qed.

(** With more than 3 columns, [fit_path] returns exactly [width]
    characters: a short path padded, a long one cut at the front behind
    three dots. *)
Theorem fit_path_width (s : string) (width : Z) :
  (3 < width)%Z -> len (fit_path s width) = width.
Proof. apply fit_path_len. Qed.

(** With exactly 3 columns the slice starts at index 0: a path longer
    than 3 characters comes back whole behind the three dots, longer
    than the column. *)
Theorem fit_path_three_columns (s : string) :
  (3 < len s)%Z -> fit_path s 3 = "..." ++ s.
Proof.
  intros H. unfold fit_path.
  assert ((len s <=? 3)%Z = false) as -> by (apply Z.leb_gt; lia).
  unfold slice_from, slice_bound. cbn. now destruct s.
Qed.

(** [main] never lays out fewer than 20 columns a side; the head line
    is as wide as the line of a record; and on a terminal of at least 43
    columns both fit the terminal. *)
Theorem main_layout (terminal_columns : option Z) (left_name right_name : string) :
  let col_width := main_col_width terminal_columns in
  (20 <= col_width)%Z /\
  len (head_line col_width left_name right_name) =
    (2 * col_width + len SEPARATOR)%Z /\
  (forall columns, terminal_columns = Some columns -> (43 <= columns)%Z ->
     (2 * col_width + len SEPARATOR <= columns)%Z).
Proof.
  intros col_width.
  assert (20 <= col_width)%Z as H20.
  { unfold col_width, main_col_width. destruct terminal_columns; lia. }
  split; [exact H20|]. split.
  - unfold head_line. rewrite !len_append, !fit_path_len, len_spaces by lia.
    change (len "L:") with 2%Z. change (len "R:") with 2%Z.
    change (len SEPARATOR) with 3%Z. lia.
  - intros columns -> Hc. unfold col_width, main_col_width.
    change (len SEPARATOR) with 3%Z. change (3 / 2)%Z with 1%Z.
    Z.div_mod_to_equations. lia.
Qed.

(** ** Calls of [print] *)

(** The number of [print] calls that end with a line feed.  It is not
    the number of lines of the output: a text that holds a line feed
    itself, such as the [str] of a multi-line scalar, spans several. *)
Fixpoint line_ending_prints (ws : list written) : nat :=
  match ws with
  | [] => 0
  | Text _ :: ws' => line_ending_prints ws'
  | Line _ :: ws' => S (line_ending_prints ws')
  end.

(** The context [pretty_print_diffs] works with: none when a text is
    missing. *)
Definition effective_context (context : Z) (left right : option string) : Z :=
  if (0 <? context)%Z
     && (match left with None => true | Some _ => false end
         || match right with None => true | Some _ => false end)
  then 0%Z else context.

(** The line-ending [print] calls made for one record: one for the
    record; and with a context, one for each context line and one for
    an empty line. *)
Definition prints_per_record (context : Z) : nat :=
  if (context =? 0)%Z then 1%nat else (2 + Z.to_nat (2 * context + 1))%nat.

Lemma line_ending_prints_app (a b : list written) :
  line_ending_prints (a ++ b)%list = (line_ending_prints a + line_ending_prints b)%nat.
Proof.
  induction a as [|[s|s] a IH]; cbn; auto.
Qed.

Lemma and_then_quiet (a b : run) n m :
  snd a = None /\ line_ending_prints (fst a) = n ->
  snd b = None /\ line_ending_prints (fst b) = m ->
  snd (and_then a b) = None /\
  line_ending_prints (fst (and_then a b)) = (n + m)%nat.
Proof.
  intros [Ha <-] [Hb <-]. unfold and_then. rewrite Ha. cbn [fst snd].
  now rewrite line_ending_prints_app.
Qed.

Lemma run_each_quiet {A : Type} (xs : list A) (body : A -> run) k :
  (forall x, snd (body x) = None /\ line_ending_prints (fst (body x)) = k) ->
  snd (run_each xs body) = None /\
  line_ending_prints (fst (run_each xs body)) = (List.length xs * k)%nat.
Proof.
  intros H. induction xs as [|x xs IH]; [now split|].
  cbn [run_each List.length Nat.mul]. now apply and_then_quiet.
Qed.

Lemma diff_to_str_returns (col_width : Z) (separator : string) (d : Diff) :
  (13 < col_width)%Z -> exists r, diff_to_str col_width separator d = Ok r.
Proof.
  intros Hw. unfold diff_to_str, side_to_str.
  destruct (shorten_and_pad_len (left d) (col_width - 10) "...") as (l & -> & _);
    [change (len "...") with 3%Z; lia|].
  destruct (shorten_and_pad_len (right d) (col_width - 10) "...") as (r & -> & _);
    [change (len "...") with 3%Z; lia|].
  cbn. eauto.
Qed.

Section Printed.

Variable Fore : Fore_codes.
Variable splitlines : string -> list string.

Lemma print_diff_print_calls (col_width : Z) (separator : string) (context : Z)
    (lines_l lines_r : list string) (d : Diff) :
  (13 < col_width)%Z ->
  let r := print_diff Fore col_width separator context lines_l lines_r d in
  snd r = None /\ line_ending_prints (fst r) = prints_per_record context.
Proof.
  intros Hw r. subst r. unfold print_diff, prints_per_record.
  destruct (diff_to_str_returns col_width separator d Hw) as [s ->].
  apply (and_then_quiet _ _ 0); [now split|].
  destruct (context =? 0)%Z.
  - apply (and_then_quiet _ _ 1 0); now split.
  - apply (and_then_quiet _ _ 1 (1 + Z.to_nat (2 * context + 1))); [now split|].
    rewrite Nat.add_comm.
    apply (and_then_quiet _ _ _ 1); [|now split].
    replace (Z.to_nat (2 * context + 1))
      with (List.length (py_range (- context) (context + 1)) * 1)%nat.
    2:{ unfold py_range. rewrite length_map, length_seq. lia. }
    apply run_each_quiet. intros offset. unfold print_context_line.
    apply (and_then_quiet _ _ 0 1); [now split|].
    destruct (get_context_line_len col_width lines_l (left_context d) offset)
      as (l & -> & _); [lia|].
    destruct (get_context_line_len col_width lines_r (right_context d) offset)
      as (rr & -> & _); [lia|].
    now split.
Qed.

(** With more than 13 columns [pretty_print_diffs] completes, and for
    each record it calls [print] with a line end: once without context;
    2N + 3 times with a context of N > 0 and both texts given; once with
    a context set but a text missing; twice (the record and an empty
    line) with a negative context. *)
Theorem pretty_print_diffs_print_calls (diffs : list Diff) (col_width : Z)
    (separator : string) (context : Z) (left right : option string) :
  (13 < col_width)%Z ->
  let r := pretty_print_diffs Fore splitlines diffs col_width separator
             context left right in
  snd r = None /\
  line_ending_prints (fst r) =
  (List.length diffs * prints_per_record (effective_context context left right))%nat.
Proof.
  intros Hw r. subst r. unfold pretty_print_diffs.
  fold (effective_context context left right).
  apply run_each_quiet. intros d. now apply print_diff_print_calls.
Qed.

(** Fewer than 14 columns: the assertion of [shorten_and_pad] fails on
    the first record, after its colour code is written and before any
    line is. *)
Theorem pretty_print_diffs_narrow (d : Diff) (diffs : list Diff)
    (col_width : Z) (separator : string) (left right : option string) :
  (col_width <= 13)%Z ->
  pretty_print_diffs Fore splitlines (d :: diffs) col_width separator 0
    left right =
  ([Text (RESET Fore)], Some AssertionError).
Proof.
  intros Hw. unfold pretty_print_diffs. cbn [Z.ltb Z.compare andb run_each].
  unfold print_diff, diff_to_str, side_to_str.
  rewrite shorten_and_pad_assertion by (change (len "...") with 3%Z; lia).
  reflexivity.
Qed.

End Printed.

(** * The further properties on concrete inputs *)

Module Checks.

Import Ints.
Local Open Scope Z_scope.

(** [[1, None]] *)
Definition seq_one_null : node Z string :=
  CommentedSeq (at_ 0 0) [((0, 2), Scalar 1); ((1, 2), PyNone)].

(** [[1, 2]] *)
Definition seq_one_two : node Z string :=
  CommentedSeq (at_ 0 0) [((0, 2), Scalar 1); ((1, 2), Scalar 2)].

(** The record [1 <-> 2] of [a: 1] against [a: 2]. *)
Definition one_two : Diff :=
  mkDiff "1" "2" (Some (mkDiffContext 1 4)) (Some (mkDiffContext 1 4)).

(** No colours, and texts of a single line. *)
Definition no_colours : Fore_codes := mkFore EmptyString EmptyString EmptyString.
Definition one_line (text : string) : list string := [text].

Lemma diff_yaml_docs_returns_witness :
  no_null_items map_ab = true /\
  exists ds, diff_yaml_docs map_ab map_ac = Ok (PyList ds).
Proof.
  split; [reflexivity|].
  apply (diff_yaml_docs_returns map_ab map_ac);
    [reflexivity | reflexivity | left; reflexivity].
Defined.

Lemma diff_yaml_docs_scalar_mismatch_witness :
  _node_type (Scalar 1 : node Z string) <> _node_type map_a1 /\
  diff_yaml_docs (Scalar 1) map_a1 = Raise AttributeError.
Proof.
  split; [discriminate|].
  apply (diff_yaml_docs_scalar_mismatch (Scalar 1) map_a1);
    [discriminate | left; reflexivity].
Defined.

Lemma diff_yaml_docs_container_mismatch_witness :
  diff_yaml_docs PyNone seq_one =
  Ok (PyDiff
        (mkDiff
           ("<top-level node of type " ++ NodeType_value (_node_type (@PyNone Z string)) ++ ">")
           ("<top-level node of type " ++ NodeType_value (_node_type seq_one) ++ ">")
           (doc_context (@PyNone Z string)) (doc_context seq_one))) /\
  (doc_context (@PyNone Z string) = None <-> @PyNone Z string = PyNone) /\
  (doc_context seq_one = None <-> seq_one = PyNone).
Proof.
  apply (diff_yaml_docs_container_mismatch PyNone seq_one); discriminate.
Defined.

Lemma skip_header_is_diff_of_tails_witness :
  diff_yaml_streams (text [map_a1; map_ab]) (text [map_a2; map_ac]) true =
  diff_yaml_streams (mkStream None (Loaded [map_ab]))
                    (mkStream None (Loaded [map_ac])) false.
Proof.
  apply (skip_header_is_diff_of_tails
           (text [map_a1; map_ab]) (text [map_a2; map_ac])
           map_a1 map_ab [] map_a2 map_ac []); reflexivity.
Defined.

Lemma null_item_past_right_end_witness :
  exists e, _diff_yaml_lists seq_one_null seq_one = Raise e.
Proof.
  apply (null_item_past_right_end (at_ 0 0)
           [((0, 2), Scalar 1); ((1, 2), PyNone)]
           (at_ 0 0) [((0, 2), Scalar 1)] 1%nat (1, 2));
    [reflexivity | simpl; lia].
Defined.

Lemma right_sequence_longer_witness :
  _diff_yaml_lists seq_one seq_one_two =
  (ds <- _diff_yaml_lists seq_one seq_one ;;
   Ok (ds ++ map (missing_item_left (at_ 0 0)) [((1, 2), Scalar 2)])%list).
Proof.
  apply (right_sequence_longer (at_ 0 0) [((0, 2), Scalar 1)]
           (at_ 0 0) [((0, 2), Scalar 1)] [((1, 2), Scalar 2)]).
  reflexivity.
Defined.

Lemma left_stream_longer_witness :
  diff_yaml_streams (mkStream None (Loaded ([map_a1] ++ [map_ab])))
                    (mkStream None (Loaded [map_a2])) false =
  (ds <- diff_yaml_streams (mkStream None (Loaded [map_a1]))
                           (mkStream None (Loaded [map_a2])) false ;;
   Ok (ds ++ documents_missing_right 1 [map_ab])%list).
Proof.
  apply (left_stream_longer None None [map_a1] [map_ab] [map_a2]);
    [reflexivity|].
  constructor; [left; reflexivity | constructor].
Defined.

Lemma diff_yaml_streams_positions_one_based_witness :
  Forall one_based [one_two].
Proof.
  apply (diff_yaml_streams_positions_one_based
           (text [map_a1]) (text [map_a2]) false); reflexivity.
Defined.

Lemma shorten_and_pad_width_witness :
  exists r, shorten_and_pad "abcdefgh" 5 "..." = Ok r /\ len r = 5.
Proof.
  apply (shorten_and_pad_width "abcdefgh" 5 "..."). reflexivity.
Defined.

Lemma diff_to_str_width_witness :
  exists r, diff_to_str 20 "<->" one_two = Ok r /\ len r = 2 * 20 + len "<->".
Proof.
  apply (diff_to_str_width 20 "<->" one_two); cbn; lia.
Defined.

Lemma get_context_line_width_witness :
  exists r,
    get_context_line 20 ["a: 1"] (Some (mkDiffContext 1 4)) 0 = Ok r /\
    len r = 20.
Proof.
  apply (get_context_line_width 20 ["a: 1"] (Some (mkDiffContext 1 4)) 0).
  reflexivity.
Defined.

Lemma fit_path_width_witness :
  len (fit_path "some/long/path/to/left.yaml" 18) = 18.
Proof.
  apply (fit_path_width "some/long/path/to/left.yaml" 18). reflexivity.
Defined.

Lemma fit_path_three_columns_witness :
  fit_path "abcd" 3 = "..." ++ "abcd".
Proof.
  apply (fit_path_three_columns "abcd"). reflexivity.
Defined.

Lemma pretty_print_diffs_print_calls_witness :
  let r := pretty_print_diffs no_colours one_line [one_two; one_two] 20 "<->"
             2 (Some "a: 1") (Some "a: 2") in
  snd r = None /\
  line_ending_prints (fst r) =
  (List.length [one_two; one_two] *
   prints_per_record (effective_context 2 (Some "a: 1") (Some "a: 2")))%nat.
Proof.
  apply (pretty_print_diffs_print_calls no_colours one_line [one_two; one_two] 20
           "<->" 2 (Some "a: 1") (Some "a: 2")).
  reflexivity.
Defined.

Lemma pretty_print_diffs_narrow_witness :
  pretty_print_diffs no_colours one_line (one_two :: []) 13 "<->" 0 None None =
  ([Text (RESET no_colours)], Some AssertionError).
Proof.
  apply (pretty_print_diffs_narrow no_colours one_line one_two [] 13 "<->"
           None None).
  discriminate.
Defined.

End Checks.
